(** * Verification of the tarot season ranking (tarot_rankings.py)

    A shallow embedding of the aggregation and ranking core of
    [tarot_rankings.py]: [parse_excel_all_sheets] (the aggregator) and
    [compute_top_k_and_totals] (the top-K selector and ranker).

    Modelling choices, each taken from the source:
    - a Python [float] is an exact rational in canonical form ([Qc]):
      every finite float is such a number, comparison and equality are
      the mathematical ones, and a sum is the exact sum.  Rounding,
      overflow, NaN and the infinities are outside the model;
    - a Python [str] is a [string]; [<] on [str] is the lexicographic
      order on its characters ([String.compare]);
    - a Python [int] is a [Z];
    - a [dict] is an association list in insertion order (the order in
      which [.items()] yields its entries), with at most one entry per key;
    - a heterogeneous Python list (a table row) is a [list value];
    - [list.sort(key=...)] is a stable sort that only uses [<] on keys;
    - the workbook reader is outside the program: a worksheet is its
      [max_row] and a function from coordinates to cell values;
    - the built-ins [float] (on a [str]), [str] (on a [float]) and
      [str.strip] are parameters of the aggregator; an exception raised
      by [float] is the result [None]. *)

From Stdlib Require Import String Ascii DecimalString.
From Stdlib Require Import List ZArith QArith Qcanon Bool Lia.
From Stdlib Require Import Permutation Sorted.
Import ListNotations.

Close Scope Qc_scope.
Close Scope Q_scope.

Set Implicit Arguments.

(* ------------------------------------------------------------------ *)
(** ** Three-way comparisons and the orders Python uses on keys        *)
(* ------------------------------------------------------------------ *)

(** A comparison function that decides a total order whose equivalence
    is equality. *)
Class TotalCmp {A : Type} (cmp : A -> A -> comparison) : Prop := {
  cmp_eq : forall a b, cmp a b = Eq -> a = b;
  cmp_refl : forall a, cmp a a = Eq;
  cmp_antisym : forall a b, cmp b a = CompOpp (cmp a b);
  cmp_trans : forall a b c, cmp a b = Lt -> cmp b c = Lt -> cmp a c = Lt
}.

(** Python compares tuples position by position: the first position
    where the components differ decides. *)
Definition lex_cmp {A B : Type} (ca : A -> A -> comparison)
    (cb : B -> B -> comparison) (x y : A * B) : comparison :=
  match ca (fst x) (fst y) with
  | Eq => cb (snd x) (snd y)
  | c => c
  end.

Definition is_lt (c : comparison) : bool :=
  match c with Lt => true | _ => false end.

(** [a < b] for the comparison [cmp]. *)
Definition cmp_ltb {A : Type} (cmp : A -> A -> comparison) (a b : A) : bool :=
  is_lt (cmp a b).

(* ------------------------------------------------------------------ *)
(** ** [list.sort(key=...)]                                            *)
(* ------------------------------------------------------------------ *)

Section Sort.
Context {A K : Type}.
Variable key : A -> K.
Variable lt : K -> K -> bool.

(** [x] goes in front of the first element whose key is not below
    the key of [x]: elements with equal keys keep their order. *)
Fixpoint insert_sorted (x : A) (l : list A) : list A :=
  match l with
  | [] => [x]
  | y :: ys =>
      if lt (key y) (key x) then y :: insert_sorted x ys else x :: y :: ys
  end.

Definition list_sort (l : list A) : list A :=
  fold_right insert_sorted [] l.
End Sort.

(** [a] may stand before [b] in a list sorted on [key]: the key of [b]
    is not below the key of [a]. *)
Definition key_le {A K : Type} (key : A -> K) (cmp : K -> K -> comparison)
    (a b : A) : Prop :=
  cmp_ltb cmp (key b) (key a) = false.

(* ------------------------------------------------------------------ *)
(** ** Values of a table row                                           *)
(* ------------------------------------------------------------------ *)

Definition num := Qc.

(** A field of a row: an [int], a [str] or a [float]. The blank
    placeholder of an unused points slot is the empty [str]. *)
Inductive value : Type :=
| VInt (n : Z)
| VStr (s : string)
| VNum (q : num).

Definition blank : value := VStr EmptyString.

(** [sum(xs)]: Python adds from the left, starting at 0. *)
Definition py_sum (xs : list num) : num :=
  fold_left Qcplus xs (Q2Qc 0).

(** [xs[:k]] for an [int] k: a negative [k] counts from the end. *)
Definition slice_to {A : Type} (k : Z) (xs : list A) : list A :=
  if (0 <=? k)%Z then firstn (Z.to_nat k) xs
  else firstn (length xs - Z.to_nat (- k)) xs.

(** [range(k)] as the list [0; ...; k-1] (empty when [k <= 0]). *)
Definition py_range (k : Z) : list Z :=
  map Z.of_nat (seq 0 (Z.to_nat k)).

(** [str(n)] for an [int]. *)
Definition str_of_int (n : Z) : string :=
  NilZero.string_of_int (Z.to_int n).

(** [enumerate(xs)]. *)
Definition enumerate {A : Type} (xs : list A) : list (Z * A) :=
  combine (map Z.of_nat (seq 0 (length xs))) xs.

(** [==] on floats. *)
Definition num_eqb (x y : num) : bool :=
  match Qccompare x y with Eq => true | _ => false end.

(* ------------------------------------------------------------------ *)
(** ** The player mapping                                              *)
(* ------------------------------------------------------------------ *)

(** [(last_name, first_name)]. *)
Definition player_key : Type := string * string.

(** [(list of scores, list of points)]. *)
Definition player_lists : Type := list num * list num.

(** [Dict[Tuple[str, str], Tuple[List[float], List[float]]]], entries in
    insertion order. *)
Definition player_dict : Type := list (player_key * player_lists).

Definition key_eqb (a b : player_key) : bool :=
  String.eqb (fst a) (fst b) && String.eqb (snd a) (snd b).

(** [key in d]. *)
Definition dict_mem (key : player_key) (d : player_dict) : bool :=
  existsb (fun e => key_eqb key (fst e)) d.

(** [d.get(key)]. *)
Fixpoint dict_get (key : player_key) (d : player_dict) : option player_lists :=
  match d with
  | [] => None
  | (k', v) :: rest => if key_eqb key k' then Some v else dict_get key rest
  end.

(** [d[key] = v] for a key that may or may not be present: a present
    key keeps its place, a new one goes last. *)
Fixpoint dict_set (key : player_key) (v : player_lists) (d : player_dict)
  : player_dict :=
  match d with
  | [] => [(key, v)]
  | (k', v') :: rest =>
      if key_eqb key k' then (k', v) :: rest
      else (k', v') :: dict_set key v rest
  end.

(** The in-place update [f(d[key])] of the lists stored under [key]. *)
Fixpoint dict_adjust (key : player_key) (f : player_lists -> player_lists)
    (d : player_dict) : player_dict :=
  match d with
  | [] => []
  | (k', v) :: rest =>
      if key_eqb key k' then (k', f v) :: rest
      else (k', v) :: dict_adjust key f rest
  end.

(* ------------------------------------------------------------------ *)
(** ** [compute_top_k_and_totals]                                      *)
(* ------------------------------------------------------------------ *)

(** [key=lambda x: (-x[0], -x[1])] on a (points, score) pair. *)
Definition contribution_key (x : num * num) : num * num :=
  (Qcopp (fst x), Qcopp (snd x)).

Definition num_pair_cmp : num * num -> num * num -> comparison :=
  lex_cmp Qccompare Qccompare.

(** [combined = list(zip(points, scores)); combined.sort(...)]. *)
Definition sorted_contributions (scores points : list num) : list (num * num) :=
  list_sort contribution_key (cmp_ltb num_pair_cmp) (combine points scores).

(** [while len(base_row) < 3 + k: base_row.append("")], one iteration
    per missing field. *)
Fixpoint pad_loop (missing : nat) (row : list value) : list value :=
  match missing with
  | O => row
  | S n => pad_loop n (row ++ [blank])
  end.

Definition pad_row (k : Z) (row : list value) : list value :=
  pad_loop (Z.to_nat (3 + k - Z.of_nat (length row))) row.

(** An element of [rows_with_meta]:
    [(base_row, play_count, total_score, total_points, ln, fn)]. *)
Record meta : Type := Meta {
  base_row : list value;
  play_count : Z;
  total_score : num;
  total_points : num;
  ln : string;
  fn : string
}.

(** The body of the loop over [player_data.items()]. *)
Definition player_meta (k : Z) (entry : player_key * player_lists) : meta :=
  let '((last_name, first_name), (scores, points)) := entry in
  let combined := sorted_contributions scores points in
  let top_combined := slice_to k combined in
  let top_points := map fst top_combined in
  let top_scores := map snd top_combined in
  let total_score := py_sum top_scores in
  let total_points := py_sum top_points in
  let play_count := Z.of_nat (length top_combined) in
  let base_row :=
    pad_row k ([VStr last_name; VStr first_name; VInt play_count]
               ++ map VNum top_points) in
  Meta (base_row ++ [VNum total_score; VNum total_points])
       play_count total_score total_points last_name first_name.

Definition rows_with_meta (player_data : player_dict) (k : Z) : list meta :=
  map (player_meta k) player_data.

Definition points_cols (k : Z) : list string :=
  map (fun i => str_of_int (i + 1)) (py_range k).

Definition headers (k : Z) : list string :=
  ["Classement"; "Nom"; "Prénom"; "Participations"]%string
  ++ points_cols k ++ ["Totaux"]%string ++ ["Scores"; "Points"]%string.

(** [key=lambda t: (-t[3], -t[2], t[4], t[5])]. *)
Definition ranking_key (t : meta) : num * num * string * string :=
  (Qcopp (total_points t), Qcopp (total_score t), ln t, fn t).

Definition ranking_cmp
  : num * num * string * string -> num * num * string * string -> comparison :=
  lex_cmp (lex_cmp num_pair_cmp String.compare) String.compare.

Definition sorted_meta (player_data : player_dict) (k : Z) : list meta :=
  list_sort ranking_key (cmp_ltb ranking_cmp) (rows_with_meta player_data k).

(** State of the ranking loop: [classement], [last_key], [ranked_rows]. *)
Record rank_state : Type := RankState {
  classement : Z;
  last_key : option (num * num);
  ranked_rows : list (list value)
}.

Definition totals_eqb (a b : num * num) : bool :=
  num_eqb (fst a) (fst b) && num_eqb (snd a) (snd b).

(** One iteration of [for i, (...) in enumerate(rows_with_meta)]. *)
Definition rank_step (st : rank_state) (im : Z * meta) : rank_state :=
  let '(i, m) := im in
  let key := (total_points m, total_score m) in
  let fresh :=
    match last_key st with
    | None => true
    | Some lk => negb (totals_eqb key lk)
    end in
  let classement' := if fresh then (i + 1)%Z else classement st in
  let last_key' := if fresh then Some key else last_key st in
  let final_row := VInt classement' :: base_row m in
  RankState classement' last_key' (ranked_rows st ++ [final_row]).

Definition assign_ranks (sorted : list meta) : list (list value) :=
  ranked_rows (fold_left rank_step (enumerate sorted) (RankState 0 None [])).

(** [key=lambda r: (r[0], r[1], r[2])]. Every row the ranking loop
    builds starts with the [int] rank and the two [str] names (lemma
    [final_key_final_row]), so the last case is never reached there. *)
Definition final_key (r : list value) : Z * string * string :=
  match r with
  | VInt c :: VStr l :: VStr f :: _ => (c, l, f)
  | _ => (0%Z, EmptyString, EmptyString)
  end.

Definition final_cmp : Z * string * string -> Z * string * string -> comparison :=
  lex_cmp (lex_cmp Z.compare String.compare) String.compare.

Definition compute_top_k_and_totals (player_data : player_dict) (k : Z)
  : list string * list (list value) :=
  (headers k,
   list_sort final_key (cmp_ltb final_cmp)
     (assign_ranks (sorted_meta player_data k))).

(* ------------------------------------------------------------------ *)
(** ** [parse_excel_all_sheets]                                        *)
(* ------------------------------------------------------------------ *)

(** The value of a spreadsheet cell as the workbook reader hands it
    over: [None], a [str], an [int], a [float], a [bool], or an object
    of another type (a date, say), of which only its [str()] text
    matters here. *)
Inductive cell_value : Type :=
| CNone
| CText (s : string)
| CInt (n : Z)
| CFloat (q : num)
| CBool (b : bool)
| COther (text : string).

(** A worksheet: [ws.max_row] and [ws[f"{col_letter}{row}"].value]. *)
Record worksheet : Type := Worksheet {
  max_row : option Z;
  cell : Z -> string -> cell_value
}.

Definition START_ROW_IDX_1BASED : Z := 4.
Definition END_ROW_IDX_1BASED : Z := 100.
Definition COL_LASTNAME_LETTER : string := "C".
Definition COL_FIRSTNAME_LETTER : string := "D".
Definition COL_SCORE_LETTER : string := "I".
Definition COL_POINTS_LETTER : string := "K".
Definition TOP_K : Z := 15.

(** [range(start, stop)]. *)
Definition py_range2 (start stop : Z) : list Z :=
  map (fun i => (start + Z.of_nat i)%Z) (seq 0 (Z.to_nat (stop - start))).

Definition string_is_empty (s : string) : bool :=
  match s with EmptyString => true | _ => false end.

Definition list_is_empty {A : Type} (l : list A) : bool :=
  match l with [] => true | _ => false end.

Section Aggregator.
(** Python built-ins the aggregator calls, left abstract:
    [float(s)] on a [str] ([None] when it raises), [str(x)] on a
    [float], and [s.strip()]. *)
Variable float_of_str : string -> option num.
Variable str_of_float : num -> string.
Variable strip : string -> string.

(** [float(v)], [None] when it raises. *)
Definition py_float (v : cell_value) : option num :=
  match v with
  | CNone => None
  | CText s => float_of_str s
  | CInt n => Some (Q2Qc (inject_Z n))
  | CFloat q => Some q
  | CBool b => Some (Q2Qc (if b then 1 else 0))
  | COther _ => None
  end.

(** [str(v)]. *)
Definition py_str (v : cell_value) : string :=
  match v with
  | CNone => "None"
  | CText s => s
  | CInt n => str_of_int n
  | CFloat q => str_of_float q
  | CBool b => if b then "True" else "False"
  | COther text => text
  end.

(** [v is None or str(v).strip() == ""]. *)
Definition blank_name (v : cell_value) : bool :=
  match v with
  | CNone => true
  | _ => string_is_empty (strip (py_str v))
  end.

(** [str(v).strip() if v is not None else ""]. *)
Definition clean_name (v : cell_value) : string :=
  match v with
  | CNone => EmptyString
  | _ => strip (py_str v)
  end.

(** The body of the loop over the rows of a sheet, after the four
    cells have been read; each [continue] returns the mapping as it is. *)
Definition row_step (player_to_data : player_dict)
    (ln fn sc pt : cell_value) : player_dict :=
  if blank_name ln && blank_name fn then player_to_data
  else
    match sc with
    | CNone => player_to_data
    | _ =>
        match py_float sc with
        | None => player_to_data
        | Some numeric_score =>
            let numeric_points :=
              match pt with
              | CNone => Q2Qc 0
              | _ => match py_float pt with
                     | Some p => p
                     | None => Q2Qc 0
                     end
              end in
            let last_name := clean_name ln in
            let first_name := clean_name fn in
            if string_is_empty last_name && string_is_empty first_name
            then player_to_data
            else
              let key := (last_name, first_name) in
              let d0 :=
                if negb (dict_mem key player_to_data)
                then dict_set key ([], []) player_to_data
                else player_to_data in
              let d1 :=
                dict_adjust key (fun v => (fst v ++ [numeric_score], snd v)) d0 in
              dict_adjust key (fun v => (fst v, snd v ++ [numeric_points])) d1
        end
    end.

Definition sheet_row_step (ws : worksheet) (player_to_data : player_dict)
    (r : Z) : player_dict :=
  row_step player_to_data
    (cell ws r COL_LASTNAME_LETTER) (cell ws r COL_FIRSTNAME_LETTER)
    (cell ws r COL_SCORE_LETTER) (cell ws r COL_POINTS_LETTER).

(** The body of [for ws in wb.worksheets]. *)
Definition sheet_step (player_to_data : player_dict) (ws : worksheet)
  : player_dict :=
  (* [ws.max_row or 0]: [None] and [0] both give [0] *)
  let max_row := match max_row ws with Some n => n | None => 0%Z end in
  let start := START_ROW_IDX_1BASED in
  let end_ := Z.min END_ROW_IDX_1BASED max_row in
  if (end_ <? start)%Z then player_to_data
  else fold_left (sheet_row_step ws) (py_range2 start (end_ + 1)) player_to_data.

(** A workbook is the list [wb.worksheets]. *)
Definition parse_excel_all_sheets (worksheets : list worksheet) : player_dict :=
  let player_to_data := fold_left sheet_step worksheets [] in
  filter (fun e => negb (list_is_empty (fst (snd e)))) player_to_data.

(** The core of [run]: aggregate, then rank with [TOP_K]. *)
Definition run_core (worksheets : list worksheet)
  : list string * list (list value) :=
  compute_top_k_and_totals (parse_excel_all_sheets worksheets) TOP_K.
End Aggregator.

(* ------------------------------------------------------------------ *)
(** ** Notions used to state the properties of the ranker              *)
(* ------------------------------------------------------------------ *)

(** [key = (total_points, total_score)] of the ranking loop. *)
Definition totals (m : meta) : num * num := (total_points m, total_score m).


(** The same test as the sorts of the code perform it, on negated keys. *)
Definition outranksb (a b : num * num) : bool :=
  cmp_ltb num_pair_cmp (contribution_key a) (contribution_key b).

(** Competition rank of a totals pair among the rows [l]: one more
    than the number of rows with strictly better totals. *)
Definition rank_of (t : num * num) (l : list meta) : Z :=
  (1 + Z.of_nat (length (filter (fun m => outranksb (totals m) t) l)))%Z.


(** Fields of a finished row, by position: the rank comes first, the
    names next, the two totals last (score, then points). *)
Definition row_rank (r : list value) : Z :=
  match r with VInt c :: _ => c | _ => 0%Z end.

Definition row_identity (r : list value) : player_key :=
  match r with _ :: VStr l :: VStr f :: _ => (l, f) | _ => (EmptyString, EmptyString) end.



(** The row of a player, field by field. *)
Definition row_fields (rank : Z) (id : player_key) (count : nat)
    (slots : list value) (score points : num) : list value :=
  [VInt rank; VStr (fst id); VStr (snd id); VInt (Z.of_nat count)]
  ++ slots ++ [VNum score; VNum points].

(** Order of two identities: surname first, given name second. *)
Definition name_cmp : player_key -> player_key -> comparison :=
  lex_cmp String.compare String.compare.

(** [top_combined] of the loop body: the contributions kept for a player. *)
Definition top_combined (k : Z) (scores points : list num) : list (num * num) :=
  slice_to k (sorted_contributions scores points).

(** The K points slots of a row: the kept points, then blanks. *)
Definition points_slots (k : Z) (kept : list (num * num)) : list value :=
  map VNum (map fst kept) ++ repeat blank (Z.to_nat k - length kept).

(** The finished row of a mapping entry, given its rank. *)
Definition player_row (k : Z) (rank : Z) (entry : player_key * player_lists)
  : list value :=
  let kept := top_combined k (fst (snd entry)) (snd (snd entry)) in
  row_fields rank (fst entry) (length kept) (points_slots k kept)
    (py_sum (map snd kept)) (py_sum (map fst kept)).

(** Totals of a mapping entry: (total_points, total_score). *)
Definition entry_totals (k : Z) (entry : player_key * player_lists) : num * num :=
  let kept := top_combined k (fst (snd entry)) (snd (snd entry)) in
  (py_sum (map fst kept), py_sum (map snd kept)).

(** Competition rank of a mapping entry among all players. *)
Definition entry_rank (k : Z) (player_data : player_dict)
    (entry : player_key * player_lists) : Z :=
  rank_of (entry_totals k entry) (rows_with_meta player_data k).

(** The rows of the ranked table in the order of the mapping. *)
Definition expected_rows (k : Z) (player_data : player_dict) : list (list value) :=
  map (fun e => player_row k (entry_rank k player_data e) e) player_data.

(** The row of a player when K = 0. *)
Definition zero_row (id : player_key) : list value :=
  [VInt 1; VStr (fst id); VStr (snd id); VInt 0; VNum (Q2Qc 0); VNum (Q2Qc 0)].

(** The ranking loop as a recursive function of its state: index [i],
    [classement] and [last_key]. *)
Fixpoint scan_ranks (i c : Z) (lk : option (num * num)) (l : list meta)
  : list (list value) :=
  match l with
  | [] => []
  | m :: rest =>
      let st := rank_step (RankState c lk []) (i, m) in
      (VInt (classement st) :: base_row m)
        :: scan_ranks (i + 1) (classement st) (last_key st) rest
  end.

(** One row may stand before another in the totals order: the second
    does not outrank the first. *)
Definition totals_le (a b : meta) : Prop :=
  outranksb (totals b) (totals a) = false.

(** What the ranking loop knows after the rows [pre], with the rows
    [rest] still ahead. *)
Definition scan_inv (pre rest : list meta) (c : Z) (lk : option (num * num))
  : Prop :=
  match lk with
  | None => pre = []
  | Some k0 =>
      c = rank_of k0 (pre ++ rest) /\
      (forall q, In q pre -> outranksb k0 (totals q) = false) /\
      (forall m, In m rest -> outranksb (totals m) k0 = false)
  end.

(* ------------------------------------------------------------------ *)
(** ** Notions used to state the properties of the aggregator          *)
(* ------------------------------------------------------------------ *)

Definition player_key_eq_dec (a b : player_key) : {a = b} + {a <> b}.
Proof. decide equality; apply string_dec. Defined.

(** The lists stored under a key, empty lists when the key is absent. *)
Definition dict_lists (key : player_key) (d : player_dict) : player_lists :=
  match dict_get key d with
  | Some v => v
  | None => ([], [])
  end.

(** Filing one contribution [(key, (score, points))] in the mapping:
    the key is entered with empty lists if it is new, then the score
    and the points are appended to its lists. *)
Definition dict_append (d : player_dict) (c : player_key * (num * num))
  : player_dict :=
  let d0 := if negb (dict_mem (fst c) d) then dict_set (fst c) ([], []) d else d in
  dict_adjust (fst c) (fun v => (fst v, snd v ++ [snd (snd c)]))
    (dict_adjust (fst c) (fun v => (fst v ++ [fst (snd c)], snd v)) d0).

(** The (score, points) pairs filed under [key] in a list of contributions. *)
Definition collect (key : player_key) (cs : list (player_key * (num * num)))
  : list (num * num) :=
  map snd (filter (fun c => key_eqb key (fst c)) cs).

(** A raw row: the surname, given-name, score and points cells. *)
Definition raw_row : Type := cell_value * cell_value * cell_value * cell_value.

(** The rows of a sheet inside the window 4..100, in row order. *)
Definition sheet_rows (ws : worksheet) : list raw_row :=
  let last := Z.min END_ROW_IDX_1BASED
                (match max_row ws with Some n => n | None => 0%Z end) in
  map (fun r => (cell ws r COL_LASTNAME_LETTER, cell ws r COL_FIRSTNAME_LETTER,
                 cell ws r COL_SCORE_LETTER, cell ws r COL_POINTS_LETTER))
      (py_range2 START_ROW_IDX_1BASED (last + 1)).

Definition workbook_rows (worksheets : list worksheet) : list raw_row :=
  flat_map sheet_rows worksheets.

Section AggregatorSpec.
Variable float_of_str : string -> option num.
Variable str_of_float : num -> string.
Variable strip : string -> string.

(** What a row contributes, following the rules of the aggregator's
    contract: nothing when both names are blank or the score does not
    parse; otherwise the score with the points, 0 when the points
    cell is absent or does not parse. Lemma [row_step_contribution]
    relates it to the loop body. *)
Definition contribution (row : raw_row) : option (player_key * (num * num)) :=
  let '(ln, fn, sc, pt) := row in
  if blank_name str_of_float strip ln && blank_name str_of_float strip fn
  then None
  else
    match py_float float_of_str sc with
    | None => None
    | Some s =>
        Some ((clean_name str_of_float strip ln, clean_name str_of_float strip fn),
              (s, match py_float float_of_str pt with
                  | Some p => p
                  | None => Q2Qc 0
                  end))
    end.

(** The contributions of a workbook, in sheet order and row order. *)
Definition contributions (worksheets : list worksheet)
  : list (player_key * (num * num)) :=
  flat_map (fun row => match contribution row with Some c => [c] | None => [] end)
           (workbook_rows worksheets).

(** The (score, points) pairs of one identity, in encounter order. *)
Definition contributions_of (key : player_key) (worksheets : list worksheet)
  : list (num * num) :=
  collect key (contributions worksheets).
End AggregatorSpec.

(* ------------------------------------------------------------------ *)
(** ** [export_csv], [export_pdf], [run] and [main]                    *)
(* ------------------------------------------------------------------ *)

(** [padded = row[:]; while len(padded) < len(headers): padded.append("")]. *)
Definition csv_pad (width : nat) (row : list value) : list value :=
  pad_loop (width - length row) row.

(** The records [export_csv] hands to [writer.writerow], in order: the
    headers, then every row padded. Turning a record into a line of
    text is the work of the [csv] module. *)
Definition csv_records (headers : list string) (rows : list (list value))
  : list (list value) :=
  map VStr headers :: map (csv_pad (length headers)) rows.

(** [float(val).is_integer()] on a number in lowest terms. *)
Definition is_integer (q : num) : bool := Pos.eqb (Qden (this q)) 1.

(** The first and the second header row of the printable table; [k]
    is [TOP_K] there. [[""] * (k - 1)] is empty when [k <= 1]. *)
Definition first_header : list string :=
  let k := TOP_K in
  ["Classement"; "Nom"; "Prénom"; "Participations"; "Points"]%string
  ++ repeat EmptyString (Z.to_nat (k - 1)) ++ ["Totaux"]%string.

Definition second_header : list string :=
  let k := TOP_K in
  [EmptyString; EmptyString; EmptyString; EmptyString]
  ++ map (fun i => str_of_int (i + 1)) (py_range k)
  ++ ["Scores"; "Points"]%string.

Section Exports.
(** [f"{x:.1f}"] on a float, the width unit [cm] of the page layout
    library and [os.path.join], left abstract. *)
Variable format_1f : num -> string.
Variable cm : num.
Variable path_join : string -> string -> string.

(** The body of the loop [for val in row] of [export_pdf]: a number
    with an integral value prints as [str(int(val))], another number
    with one decimal, anything else as [str(val)]. *)
Definition format_cell (val : value) : string :=
  match val with
  | VInt n => str_of_int n
  | VNum q => if is_integer q then str_of_int (Qnum (this q)) else format_1f q
  | VStr s => s
  end.

(** [data] of [export_pdf]: the two header rows, then the formatted rows. *)
Definition pdf_data (rows : list (list value)) : list (list string) :=
  first_header :: second_header :: map (map format_cell) rows.

(** [col_widths] of [export_pdf], one width per header. *)
Definition col_width (h : string) : num :=
  if String.eqb h "Classement" then Qcmult (Q2Qc (16 # 10)) cm
  else if String.eqb h "Nom" || String.eqb h "Prénom"
       then Qcmult (Q2Qc (26 # 10)) cm
  else if String.eqb h "Participations" then Qcmult (Q2Qc (18 # 10)) cm
  else if String.eqb h "Totaux" then Qcmult (Q2Qc (16 # 10)) cm
  else Qcmult (Q2Qc (12 # 10)) cm.

Definition col_widths (headers : list string) : list num :=
  map col_width headers.

(** The path an export returns: [os.path.join(out_dir, filename)]. *)
Definition csv_path (out_dir day : string) : string :=
  path_join out_dir ("classement_tarot_" ++ day ++ ".csv")%string.

Definition pdf_path (out_dir day : string) : string :=
  path_join out_dir ("classement_tarot_" ++ day ++ ".pdf")%string.

(** [outputs] of [run]: the kinds exported with their paths, in the
    order of insertion. *)
Definition run_outputs (out_dir : string) (want_pdf want_csv : bool)
    (day : string) : list (string * string) :=
  (if want_csv then [("csv"%string, csv_path out_dir day)] else [])
  ++ (if want_pdf then [("pdf"%string, pdf_path out_dir day)] else []).

(** [main] after the arguments are parsed: with neither [--pdf] nor
    [--csv] both are wanted. *)
Definition main_outputs (out_dir : string) (pdf csv : bool) (day : string)
  : list (string * string) :=
  let want_pdf := if negb pdf && negb csv then true else pdf in
  let want_csv := if negb pdf && negb csv then true else csv in
  run_outputs out_dir want_pdf want_csv day.
End Exports.

(* ------------------------------------------------------------------ *)
(** ** Further notions for the aggregator                              *)
(* ------------------------------------------------------------------ *)

(** The distinct elements of a list of identities, each at the place
    of its first occurrence. *)
Fixpoint first_occurrences (l : list player_key) : list player_key :=
  match l with
  | [] => []
  | x :: rest => x :: filter (fun y => negb (key_eqb y x)) (first_occurrences rest)
  end.

(** The number of contributions a mapping holds, all players together. *)
Definition total_contributions (d : player_dict) : nat :=
  list_sum (map (fun e => length (fst (snd e))) d).

(** The last row of the window of a sheet: [min(END_ROW_IDX_1BASED, max_row)]. *)
Definition window_end (ws : worksheet) : Z :=
  Z.min END_ROW_IDX_1BASED (match max_row ws with Some n => n | None => 0%Z end).

(** Two sheets that agree on everything the aggregator reads: the end
    of the window and, inside it, the four columns. *)
Definition same_window (ws1 ws2 : worksheet) : Prop :=
  window_end ws1 = window_end ws2 /\
  forall r col,
    (START_ROW_IDX_1BASED <= r <= window_end ws1)%Z ->
    In col [COL_LASTNAME_LETTER; COL_FIRSTNAME_LETTER;
            COL_SCORE_LETTER; COL_POINTS_LETTER] ->
    cell ws1 r col = cell ws2 r col.


(* ------------------------------------------------------------------ *)
(** ** Further notions for the ranker                                  *)
(* ------------------------------------------------------------------ *)

(** The players of the mapping whose totals are strictly better than
    those of [entry]. *)
Definition better_players (k : Z) (player_data : player_dict)
    (entry : player_key * player_lists) : list (player_key * player_lists) :=
  filter (fun e' => outranksb (entry_totals k e') (entry_totals k entry))
         player_data.


(* ------------------------------------------------------------------ *)
(** ** Sample data                                                     *)
(* ------------------------------------------------------------------ *)

(** The float with an integral value [z]. *)
Definition num_of_Z (z : Z) : num := Q2Qc (inject_Z z).

Definition example_martin : player_key * player_lists :=
  (("Martin", "Luc")%string, ([num_of_Z 80], [num_of_Z 20])).

Definition example_durand : player_key * player_lists :=
  (("Durand", "Zoe")%string,
   ([num_of_Z 50; num_of_Z 30], [num_of_Z 10; num_of_Z 10])).

Definition example_bernard : player_key * player_lists :=
  (("Bernard", "Anne")%string, ([num_of_Z 80], [num_of_Z 20])).

(** The entry of the sample player with the lowest totals. *)
Definition example_last_entry : player_key * player_lists :=
  (("Petit", "Max")%string, ([num_of_Z 10; num_of_Z 5], [num_of_Z 1; num_of_Z 7])).

(** Four players; the first three listed tie on (points 20, score 80). *)
Definition example_players : player_dict :=
  [example_martin; example_durand; example_bernard; example_last_entry].


(** Two players with equal points; the second has the higher score. *)
Definition example_two_players : player_dict :=
  [ (("A", "a")%string, ([num_of_Z 50], [num_of_Z 10]));
    (("B", "b")%string, ([num_of_Z 60], [num_of_Z 10])) ].

(** Stand-ins for the three Python built-ins, enough for the sample
    workbook: [float] on a [str] reads an unsigned decimal integer and
    raises on anything else, [str] on a float prints the integral part
    with [.0], [strip] removes spaces at both ends. *)
Definition digit_value (c : ascii) : option Z :=
  let n := Z.of_N (N_of_ascii c) in
  if ((48 <=? n) && (n <=? 57))%Z then Some (n - 48)%Z else None.

Fixpoint digits_value (acc : Z) (s : string) : option Z :=
  match s with
  | EmptyString => Some acc
  | String c s' =>
      match digit_value c with
      | Some d => digits_value (10 * acc + d) s'
      | None => None
      end
  end.

Definition sample_float_of_str (s : string) : option num :=
  match s with
  | EmptyString => None
  | _ => option_map num_of_Z (digits_value 0 s)
  end.

Definition sample_str_of_float (q : num) : string :=
  (str_of_int (Qnum (this q) / Z.pos (Qden (this q))) ++ ".0")%string.

Fixpoint strip_left (s : string) : string :=
  match s with
  | String c s' => if Ascii.eqb c " " then strip_left s' else s
  | EmptyString => EmptyString
  end.

Definition string_rev (s : string) : string :=
  string_of_list_ascii (rev (list_ascii_of_string s)).

Definition sample_strip (s : string) : string :=
  string_rev (strip_left (string_rev (strip_left s))).

(** The cells of one row, by column letter. *)
Definition row_cells (ln fn sc pt : cell_value) (col : string) : cell_value :=
  if String.eqb col COL_LASTNAME_LETTER then ln
  else if String.eqb col COL_FIRSTNAME_LETTER then fn
  else if String.eqb col COL_SCORE_LETTER then sc
  else if String.eqb col COL_POINTS_LETTER then pt
  else CNone.

(** A sheet of five rows: row 5 has an unparsable score, rows 6 and 7
    have no usable points, row 8 has no name. *)
Definition sample_sheet : worksheet :=
  Worksheet (Some 8%Z)
    (fun r =>
       if (r =? 4)%Z then
         row_cells (CText "Martin") (CText "Luc") (CInt 80) (CInt 20)
       else if (r =? 5)%Z then
         row_cells (CText "Durand") (CText "Zoe") (CText "abc") (CInt 10)
       else if (r =? 6)%Z then
         row_cells (CText " Petit ") (CText "Max") (CFloat (num_of_Z 10)) CNone
       else if (r =? 7)%Z then
         row_cells (CText "Martin") (CText "Luc") (CText "75") (CText "n/a")
       else if (r =? 8)%Z then
         row_cells CNone (CText "  ") (CInt 50) (CInt 5)
       else fun _ => CNone).

(** A sheet that ends above the first row of the window. *)
Definition short_sheet : worksheet :=
  Worksheet (Some 3%Z)
    (fun _ => row_cells (CText "Title") (CText "Row") (CInt 1) (CInt 1)).

Definition sample_workbook : list worksheet := [sample_sheet; short_sheet].

(** The sample sheet with a heading above the window and a column the
    aggregator does not read. *)
Definition sample_sheet_annotated : worksheet :=
  Worksheet (Some 8%Z)
    (fun r col =>
       if (r <? 4)%Z then CText "heading"
       else if String.eqb col "A" then CInt 1
       else cell sample_sheet r col).

Definition sample_workbook_annotated : list worksheet :=
  [sample_sheet_annotated; short_sheet].


(** A second tournament sheet with two of the players of the first. *)
Definition second_sheet : worksheet :=
  Worksheet (Some 5%Z)
    (fun r =>
       if (r =? 4)%Z then
         row_cells (CText "Petit") (CText "Max") (CInt 30) (CInt 12)
       else if (r =? 5)%Z then
         row_cells (CText "Martin") (CText "Luc") (CInt 40) (CInt 8)
       else fun _ => CNone).

(* ================================================================== *)
(** * Properties                                                       *)
(* ================================================================== *)

(* ------------------------------------------------------------------ *)
(** ** The comparisons are total orders                                *)
(* ------------------------------------------------------------------ *)

Lemma is_lt_true (c : comparison) : is_lt c = true <-> c = Lt.
Proof. destruct c; simpl; split; congruence. Qed.

Lemma is_lt_opp_false (c : comparison) : is_lt c = true -> is_lt (CompOpp c) = false.
Proof. destruct c; simpl; congruence. Qed.

#[export] Instance Z_total_cmp : TotalCmp Z.compare.
Proof.
  split.
  - apply Z.compare_eq.
  - apply Z.compare_refl.
  - intros a b. apply Z.compare_antisym.
  - intros a b c. rewrite !Z.compare_lt_iff. lia.
Qed.

#[export] Instance Qc_total_cmp : TotalCmp Qccompare.
Proof.
  split.
  - intros a b H. now apply Qceq_alt.
  - intros a. now apply Qceq_alt.
  - intros a b. unfold Qccompare. now rewrite <- Qcompare_antisym.
  - intros a b c Hab Hbc. apply Qclt_alt. apply Qclt_alt in Hab, Hbc.
    eapply Qclt_trans; eassumption.
Qed.

Lemma ascii_compare_refl (a : ascii) : Ascii.compare a a = Eq.
Proof. unfold Ascii.compare. apply N.compare_refl. Qed.

Lemma ascii_compare_trans (a b c : ascii) :
  Ascii.compare a b = Lt -> Ascii.compare b c = Lt -> Ascii.compare a c = Lt.
Proof. unfold Ascii.compare. rewrite !N.compare_lt_iff. lia. Qed.

Lemma string_compare_refl (s : string) : String.compare s s = Eq.
Proof.
  induction s as [|a s IH]; simpl; [reflexivity|].
  now rewrite ascii_compare_refl.
Qed.

Lemma string_compare_trans (s1 s2 s3 : string) :
  String.compare s1 s2 = Lt -> String.compare s2 s3 = Lt ->
  String.compare s1 s3 = Lt.
Proof.
  revert s2 s3.
  induction s1 as [|a s1 IH]; intros [|b s2] [|c s3]; simpl; try congruence.
  destruct (Ascii.compare a b) eqn:Hab; try discriminate;
    destruct (Ascii.compare b c) eqn:Hbc; try discriminate; intros H1 H2.
  - apply Ascii.compare_eq_iff in Hab, Hbc. subst.
    rewrite ascii_compare_refl. eauto.
  - apply Ascii.compare_eq_iff in Hab. subst. now rewrite Hbc.
  - apply Ascii.compare_eq_iff in Hbc. subst. now rewrite Hab.
  - now rewrite (ascii_compare_trans _ _ _ Hab Hbc).
Qed.

#[export] Instance string_total_cmp : TotalCmp String.compare.
Proof.
  split.
  - apply String.compare_eq_iff.
  - apply string_compare_refl.
  - intros a b. apply String.compare_antisym.
  - apply string_compare_trans.
Qed.

#[export] Instance lex_total_cmp {A B : Type}
    (ca : A -> A -> comparison) (cb : B -> B -> comparison)
    `{!TotalCmp ca} `{!TotalCmp cb} : TotalCmp (lex_cmp ca cb).
Proof.
  split; unfold lex_cmp.
  - intros [a1 b1] [a2 b2]; simpl.
    destruct (ca a1 a2) eqn:Ha; try discriminate.
    intros Hb. apply cmp_eq in Ha, Hb. now subst.
  - intros [a b]; simpl. now rewrite !cmp_refl.
  - intros [a1 b1] [a2 b2]; simpl.
    rewrite (cmp_antisym (cmp:=ca) a1 a2).
    destruct (ca a1 a2); simpl; auto using cmp_antisym.
  - intros [a1 b1] [a2 b2] [a3 b3]; simpl.
    destruct (ca a1 a2) eqn:H12; try discriminate;
      destruct (ca a2 a3) eqn:H23; try discriminate; intros Hx Hy.
    + apply cmp_eq in H12, H23. subst. rewrite cmp_refl.
      eapply cmp_trans; eassumption.
    + apply cmp_eq in H12. subst. now rewrite H23.
    + apply cmp_eq in H23. subst. now rewrite H12.
    + now rewrite (cmp_trans _ _ _ H12 H23).
Qed.

#[export] Instance num_pair_total_cmp : TotalCmp num_pair_cmp.
Proof. unfold num_pair_cmp. typeclasses eauto. Qed.

#[export] Instance ranking_total_cmp : TotalCmp ranking_cmp.
Proof. unfold ranking_cmp. typeclasses eauto. Qed.

#[export] Instance final_total_cmp : TotalCmp final_cmp.
Proof. unfold final_cmp. typeclasses eauto. Qed.

#[export] Instance name_total_cmp : TotalCmp name_cmp.
Proof. unfold name_cmp. typeclasses eauto. Qed.

Section CmpFacts.
Context {A : Type} (cmp : A -> A -> comparison) `{!TotalCmp cmp}.

Lemma cmp_ltb_irrefl (a : A) : cmp_ltb cmp a a = false.
Proof. unfold cmp_ltb. now rewrite cmp_refl. Qed.

Lemma cmp_ltb_asym (a b : A) : cmp_ltb cmp a b = true -> cmp_ltb cmp b a = false.
Proof.
  unfold cmp_ltb. rewrite (cmp_antisym (cmp:=cmp) a b). apply is_lt_opp_false.
Qed.

Lemma cmp_ltb_trans (a b c : A) :
  cmp_ltb cmp a b = true -> cmp_ltb cmp b c = true -> cmp_ltb cmp a c = true.
Proof.
  unfold cmp_ltb. rewrite !is_lt_true. apply cmp_trans.
Qed.

(** Not-below is transitive ([a <= b <= c]). *)
Lemma cmp_geb_trans (a b c : A) :
  cmp_ltb cmp b a = false -> cmp_ltb cmp c b = false -> cmp_ltb cmp c a = false.
Proof.
  unfold cmp_ltb. intros Hba Hcb.
  destruct (cmp c a) eqn:Hca; simpl; try reflexivity.
  destruct (cmp b a) eqn:Hba'; simpl in Hba; try discriminate.
  - apply cmp_eq in Hba'. subst. now rewrite Hca in Hcb.
  - assert (Hab : cmp a b = Lt).
    { rewrite (cmp_antisym (cmp:=cmp) b a), Hba'. reflexivity. }
    now rewrite (cmp_trans _ _ _ Hca Hab) in Hcb.
Qed.

Lemma cmp_le_lt_trans (a b c : A) :
  cmp_ltb cmp b a = false -> cmp_ltb cmp b c = true -> cmp_ltb cmp a c = true.
Proof.
  unfold cmp_ltb. intros Hba Hbc. apply is_lt_true in Hbc.
  destruct (cmp b a) eqn:H; simpl in Hba; try discriminate.
  - apply cmp_eq in H. subst. now rewrite Hbc.
  - assert (Hab : cmp a b = Lt).
    { rewrite (cmp_antisym (cmp:=cmp) b a), H. reflexivity. }
    now rewrite (cmp_trans _ _ _ Hab Hbc).
Qed.

Lemma cmp_antisym_eq (a b : A) :
  cmp_ltb cmp a b = false -> cmp_ltb cmp b a = false -> a = b.
Proof.
  unfold cmp_ltb. rewrite (cmp_antisym (cmp:=cmp) a b).
  destruct (cmp a b) eqn:H; simpl; try discriminate.
  intros _ _. now apply cmp_eq.
Qed.
End CmpFacts.

(* ------------------------------------------------------------------ *)
(** ** The sort: a sorted, stable rearrangement                        *)
(* ------------------------------------------------------------------ *)

Section SortFacts.
Context {A K : Type}.
Variable key : A -> K.
Variable cmp : K -> K -> comparison.
Context `{!TotalCmp cmp}.

Let lt := cmp_ltb cmp.

Lemma insert_sorted_perm (x : A) (l : list A) :
  Permutation (insert_sorted key lt x l) (x :: l).
Proof.
  induction l as [|y ys IH]; simpl; [reflexivity|].
  destruct (lt (key y) (key x)); [|reflexivity].
  rewrite IH. apply perm_swap.
Qed.

Lemma list_sort_perm (l : list A) : Permutation (list_sort key lt l) l.
Proof.
  induction l as [|x l IH]; simpl; [reflexivity|].
  rewrite insert_sorted_perm. now constructor.
Qed.

Lemma list_sort_length (l : list A) : length (list_sort key lt l) = length l.
Proof. apply Permutation_length, list_sort_perm. Qed.

Lemma list_sort_in (l : list A) (a : A) : In a (list_sort key lt l) <-> In a l.
Proof.
  split; apply Permutation_in;
    [apply list_sort_perm | apply Permutation_sym, list_sort_perm].
Qed.

Lemma insert_sorted_sorted (x : A) (l : list A) :
  StronglySorted (key_le key cmp) l -> StronglySorted (key_le key cmp) (insert_sorted key lt x l).
Proof.
  induction 1 as [|y ys Hs IH Hall]; simpl.
  - constructor; constructor.
  - destruct (lt (key y) (key x)) eqn:Hyx.
    + constructor; [assumption|].
      apply Forall_forall. intros z Hz.
      apply (Permutation_in _ (insert_sorted_perm x ys)) in Hz.
      destruct Hz as [<-|Hz].
      * unfold key_le. now apply cmp_ltb_asym.
      * rewrite Forall_forall in Hall. now apply Hall.
    + constructor; [now constructor|].
      constructor; [exact Hyx|].
      rewrite Forall_forall in Hall |- *. intros z Hz.
      unfold key_le. eapply cmp_geb_trans; [eassumption| exact Hyx | now apply Hall].
Qed.

Lemma list_sort_sorted (l : list A) : StronglySorted (key_le key cmp) (list_sort key lt l).
Proof.
  induction l as [|x l IH]; simpl; [constructor|].
  now apply insert_sorted_sorted.
Qed.


End SortFacts.

(* ------------------------------------------------------------------ *)
(** ** Generic list facts                                              *)
(* ------------------------------------------------------------------ *)

Lemma StronglySorted_weaken_in {A : Type} (R R' : A -> A -> Prop) (l : list A) :
  (forall a b, In a l -> In b l -> R a b -> R' a b) ->
  StronglySorted R l -> StronglySorted R' l.
Proof.
  intros Himp Hs. induction Hs as [|x l Hs IH Hall].
  - constructor.
  - constructor.
    + apply IH. intros a b Ha Hb. apply Himp; now right.
    + rewrite Forall_forall in Hall |- *. intros y Hy.
      apply Himp; [now left | now right | now apply Hall].
Qed.

Lemma filter_length_perm {A : Type} (f : A -> bool) (l l' : list A) :
  Permutation l l' -> length (filter f l) = length (filter f l').
Proof.
  induction 1 as [| x l l' _ IH | x y l | l l' l'' _ IH1 _ IH2]; simpl.
  - reflexivity.
  - destruct (f x); simpl; now rewrite IH.
  - destruct (f x), (f y); reflexivity.
  - now rewrite IH1.
Qed.

Lemma filter_length_all {A : Type} (f : A -> bool) (l : list A) :
  (forall a, In a l -> f a = true) -> length (filter f l) = length l.
Proof.
  induction l as [|x l IH]; intros H; simpl; [reflexivity|].
  rewrite (H x) by now left. simpl. f_equal. apply IH.
  intros a Ha. apply H. now right.
Qed.

Lemma filter_length_none {A : Type} (f : A -> bool) (l : list A) :
  (forall a, In a l -> f a = false) -> length (filter f l) = 0.
Proof.
  induction l as [|x l IH]; intros H; simpl; [reflexivity|].
  rewrite (H x) by now left. apply IH.
  intros a Ha. apply H. now right.
Qed.

Lemma filter_length_le {A : Type} (f g : A -> bool) (l : list A) :
  (forall a, In a l -> f a = true -> g a = true) ->
  length (filter f l) <= length (filter g l).
Proof.
  induction l as [|x l IH]; intros H; simpl; [lia|].
  assert (IH' : length (filter f l) <= length (filter g l)).
  { apply IH. intros a Ha. apply H. now right. }
  destruct (f x) eqn:Hf.
  - rewrite (H x) by (auto; now left). simpl. lia.
  - destruct (g x); simpl; lia.
Qed.



(* ------------------------------------------------------------------ *)
(** ** The row of one player                                           *)
(* ------------------------------------------------------------------ *)

Lemma pad_loop_spec (n : nat) (row : list value) :
  pad_loop n row = row ++ repeat blank n.
Proof.
  revert row. induction n as [|n IH]; intros row; simpl.
  - now rewrite app_nil_r.
  - rewrite IH, <- app_assoc. reflexivity.
Qed.

Lemma slice_to_nonneg {A : Type} (k : Z) (xs : list A) :
  (0 <= k)%Z -> slice_to k xs = firstn (Z.to_nat k) xs.
Proof.
  intros Hk. unfold slice_to.
  destruct (0 <=? k)%Z eqn:E; [reflexivity|]. apply Z.leb_gt in E. lia.
Qed.

Lemma sorted_contributions_length (scores points : list num) :
  length (sorted_contributions scores points) = length (combine points scores).
Proof. apply list_sort_length. Qed.

Lemma top_combined_length (k : Z) (scores points : list num) :
  (0 <= k)%Z ->
  length (top_combined k scores points)
  = Nat.min (Z.to_nat k) (length (combine points scores)).
Proof.
  intros Hk. unfold top_combined. rewrite slice_to_nonneg by assumption.
  now rewrite length_firstn, sorted_contributions_length.
Qed.

(** The metadata tuple of an entry, in terms of the kept contributions. *)
Lemma player_meta_totals (k : Z) (entry : player_key * player_lists) :
  totals (player_meta k entry) = entry_totals k entry.
Proof. destruct entry as [[l f] [scores points]]. reflexivity. Qed.


(** With its rank in front, the base row of an entry is the row laid
    out field by field. *)
Lemma player_meta_row (k rank : Z) (entry : player_key * player_lists) :
  (0 <= k)%Z ->
  VInt rank :: base_row (player_meta k entry) = player_row k rank entry.
Proof.
  intros Hk. destruct entry as [[l f] [scores points]].
  unfold player_row, row_fields, points_slots, player_meta, pad_row; simpl fst; simpl snd.
  fold (top_combined k scores points).
  set (kept := top_combined k scores points).
  assert (Hlen : length kept <= Z.to_nat k).
  { unfold kept. rewrite top_combined_length by assumption. lia. }
  cbn [base_row]. rewrite pad_loop_spec.
  cbn [length app]. rewrite !length_map.
  replace (Z.to_nat (3 + k - Z.of_nat (S (S (S (length kept))))))
    with (Z.to_nat k - length kept) by lia.
  cbn [app]. now rewrite <- app_assoc.
Qed.

(** The sort key of a finished row is made of its rank and names,
    for every K. *)
Lemma final_key_final_row (k rank : Z) (entry : player_key * player_lists) :
  final_key (VInt rank :: base_row (player_meta k entry))
  = (rank, fst (fst entry), snd (fst entry)).
Proof.
  destruct entry as [[l f] [scores points]].
  unfold player_meta, pad_row. cbn [base_row]. rewrite pad_loop_spec.
  reflexivity.
Qed.

(* ------------------------------------------------------------------ *)
(** ** The order on totals                                             *)
(* ------------------------------------------------------------------ *)


Lemma num_eqb_eq (x y : num) : num_eqb x y = true <-> x = y.
Proof.
  unfold num_eqb. rewrite Qceq_alt.
  destruct (Qccompare x y); split; congruence.
Qed.

Lemma totals_eqb_eq (a b : num * num) : totals_eqb a b = true <-> a = b.
Proof.
  destruct a as [a1 a2], b as [b1 b2]. unfold totals_eqb; cbn [fst snd].
  rewrite andb_true_iff, !num_eqb_eq. split.
  - intros [-> ->]. reflexivity.
  - intros H. split; [exact (f_equal fst H) | exact (f_equal snd H)].
Qed.

Lemma contribution_key_inj (a b : num * num) :
  contribution_key a = contribution_key b -> a = b.
Proof.
  destruct a as [a1 a2], b as [b1 b2]. unfold contribution_key; cbn [fst snd].
  intros H.
  assert (H1 := f_equal (fun p => Qcopp (fst p)) H).
  assert (H2 := f_equal (fun p => Qcopp (snd p)) H).
  cbn [fst snd] in H1, H2. rewrite !Qcopp_involutive in H1, H2.
  now subst.
Qed.


Lemma outranksb_irrefl (a : num * num) : outranksb a a = false.
Proof. unfold outranksb. apply (cmp_ltb_irrefl (cmp:=num_pair_cmp)). Qed.

Lemma outranksb_asym (a b : num * num) : outranksb a b = true -> outranksb b a = false.
Proof. unfold outranksb. apply (cmp_ltb_asym (cmp:=num_pair_cmp)). Qed.

Lemma outranksb_trans (a b c : num * num) :
  outranksb a b = true -> outranksb b c = true -> outranksb a c = true.
Proof. unfold outranksb. apply (cmp_ltb_trans (cmp:=num_pair_cmp)). Qed.

(** [a] is at least as good as [b], and [b] outranks [c]. *)
Lemma outranksb_le_lt (a b c : num * num) :
  outranksb b a = false -> outranksb b c = true -> outranksb a c = true.
Proof. unfold outranksb. apply (cmp_le_lt_trans (cmp:=num_pair_cmp)). Qed.

Lemma outranksb_total (a b : num * num) :
  a <> b -> outranksb a b = true \/ outranksb b a = true.
Proof.
  intros Hne.
  destruct (outranksb a b) eqn:Hab; [now left|].
  destruct (outranksb b a) eqn:Hba; [now right|].
  exfalso. apply Hne. apply contribution_key_inj.
  eapply (cmp_antisym_eq (cmp:=num_pair_cmp)); eassumption.
Qed.

Lemma rank_of_perm (t : num * num) (l l' : list meta) :
  Permutation l l' -> rank_of t l = rank_of t l'.
Proof.
  intros H. unfold rank_of. now rewrite (filter_length_perm _ H).
Qed.


(** A better total never has a larger rank. *)
Lemma rank_of_mono (l : list meta) (t1 t2 : num * num) :
  outranksb t2 t1 = false -> (rank_of t1 l <= rank_of t2 l)%Z.
Proof.
  intros H. unfold rank_of.
  assert (length (filter (fun m => outranksb (totals m) t1) l)
          <= length (filter (fun m => outranksb (totals m) t2) l)); [|lia].
  apply filter_length_le. intros a _ Ha.
  destruct (totals_eqb t1 t2) eqn:E.
  - apply totals_eqb_eq in E. now subst.
  - assert (Hne : t1 <> t2).
    { intros Heq. apply totals_eqb_eq in Heq. congruence. }
    destruct (outranksb_total Hne) as [Hlt|Hlt]; [|congruence].
    eapply outranksb_trans; eassumption.
Qed.

(* ------------------------------------------------------------------ *)
(** ** The ranking loop                                                *)
(* ------------------------------------------------------------------ *)

Lemma rank_step_classement (st : rank_state) (im : Z * meta) :
  classement (rank_step st im)
  = classement (rank_step (RankState (classement st) (last_key st) []) im).
Proof. destruct im. reflexivity. Qed.

Lemma rank_step_last_key (st : rank_state) (im : Z * meta) :
  last_key (rank_step st im)
  = last_key (rank_step (RankState (classement st) (last_key st) []) im).
Proof. destruct im. reflexivity. Qed.

Lemma rank_step_rows (st : rank_state) (i : Z) (m : meta) :
  ranked_rows (rank_step st (i, m))
  = ranked_rows st ++ [VInt (classement (rank_step st (i, m))) :: base_row m].
Proof. reflexivity. Qed.

(** The loop over [enumerate] appends the rows of [scan_ranks]. *)
Lemma rank_fold_scan (l : list meta) (s : nat) (st : rank_state) :
  ranked_rows
    (fold_left rank_step (combine (map Z.of_nat (seq s (length l))) l) st)
  = ranked_rows st
    ++ scan_ranks (Z.of_nat s) (classement st) (last_key st) l.
Proof.
  revert s st. induction l as [|m l IH]; intros s st.
  - simpl. now rewrite app_nil_r.
  - cbn [length seq map combine fold_left scan_ranks].
    rewrite IH, rank_step_rows, <- app_assoc. cbn [app].
    rewrite <- rank_step_classement, <- rank_step_last_key.
    replace (Z.of_nat (S s)) with (Z.of_nat s + 1)%Z by lia.
    reflexivity.
Qed.

Lemma assign_ranks_scan (l : list meta) :
  assign_ranks l = scan_ranks 0 0 None l.
Proof.
  unfold assign_ranks, enumerate. now rewrite rank_fold_scan.
Qed.

Lemma scan_ranks_length (l : list meta) (i c : Z) (lk : option (num * num)) :
  length (scan_ranks i c lk l) = length l.
Proof.
  revert i c lk. induction l as [|m l IH]; intros; simpl; [reflexivity|].
  now rewrite IH.
Qed.

(** One step of the loop on a list sorted by totals: the row gets its
    competition rank, and the loop's knowledge carries over. *)
Lemma scan_step_inv (pre rest : list meta) (x : meta) (c : Z)
    (lk : option (num * num)) :
  StronglySorted totals_le (x :: rest) ->
  scan_inv pre (x :: rest) c lk ->
  let st := rank_step (RankState c lk []) (Z.of_nat (length pre), x) in
  classement st = rank_of (totals x) (pre ++ x :: rest) /\
  last_key st = Some (totals x) /\
  scan_inv (pre ++ [x]) rest (classement st) (last_key st).
Proof.
  intros Hs Hinv.
  inversion Hs as [|? ? Hs' Hall]; subst. rewrite Forall_forall in Hall.
  assert (Htail : forall a, In a (x :: rest) -> outranksb (totals a) (totals x) = false).
  { intros a [<-|Ha]; [apply outranksb_irrefl | now apply Hall]. }
  assert (Hcount : forall f : meta -> bool,
             (forall q, In q pre -> f q = true) ->
             (forall a, In a (x :: rest) -> f a = false) ->
             (1 + Z.of_nat (length (filter f (pre ++ x :: rest))))%Z
             = (Z.of_nat (length pre) + 1)%Z).
  { intros f Hpre Hrest. rewrite filter_app, length_app.
    rewrite (filter_length_all _ _ Hpre), (filter_length_none _ _ Hrest). lia. }
  cbv zeta. unfold rank_step. cbn [last_key classement].
  fold (totals x).
  destruct lk as [k0|]; cbn [scan_inv] in Hinv.
  - destruct Hinv as (Hc & Hpre & Hrest).
    destruct (totals_eqb (totals x) k0) eqn:E; cbn [negb].
    + apply totals_eqb_eq in E. subst k0.
      split; [assumption|]. split; [reflexivity|].
      cbn [scan_inv]. rewrite <- app_assoc. cbn [app].
      split; [assumption|]. split.
      * intros q Hq. apply in_app_or in Hq. destruct Hq as [Hq|[<-|[]]].
        -- now apply Hpre.
        -- apply outranksb_irrefl.
      * intros m Hm. now apply Hall.
    + assert (Hne : k0 <> totals x).
      { intros Heq. subst k0.
        assert (totals_eqb (totals x) (totals x) = true) by now apply totals_eqb_eq.
        congruence. }
      assert (Hk0 : outranksb k0 (totals x) = true).
      { destruct (outranksb_total Hne) as [H|H]; [assumption|].
        rewrite (Hrest x) in H by now left. discriminate. }
      assert (Hbetter : forall q, In q pre -> outranksb (totals q) (totals x) = true).
      { intros q Hq. eapply outranksb_le_lt; [apply (Hpre q Hq) | exact Hk0]. }
      assert (Hrank : (Z.of_nat (length pre) + 1)%Z = rank_of (totals x) (pre ++ x :: rest)).
      { unfold rank_of. symmetry. now apply Hcount. }
      split; [assumption|]. split; [reflexivity|].
      cbn [scan_inv]. rewrite <- app_assoc. cbn [app].
      split; [assumption|]. split.
      * intros q Hq. apply in_app_or in Hq. destruct Hq as [Hq|[<-|[]]].
        -- apply outranksb_asym. now apply Hbetter.
        -- apply outranksb_irrefl.
      * intros m Hm. now apply Hall.
  - subst pre. cbn [length app] in *.
    assert (Hrank : (Z.of_nat 0 + 1)%Z = rank_of (totals x) (x :: rest)).
    { unfold rank_of. symmetry. apply (Hcount (fun m => outranksb (totals m) (totals x))).
      - intros q [].
      - assumption. }
    split; [assumption|]. split; [reflexivity|].
    cbn [scan_inv app]. split; [assumption|]. split.
    + intros q [<-|[]]. apply outranksb_irrefl.
    + intros m Hm. now apply Hall.
Qed.

(** On a list sorted by totals the loop assigns competition ranks. *)
Lemma scan_ranks_sorted (l pre : list meta) (c : Z) (lk : option (num * num)) :
  StronglySorted totals_le l ->
  scan_inv pre l c lk ->
  scan_ranks (Z.of_nat (length pre)) c lk l
  = map (fun m => VInt (rank_of (totals m) (pre ++ l)) :: base_row m) l.
Proof.
  revert pre c lk. induction l as [|x l IH]; intros pre c lk Hs Hinv.
  - reflexivity.
  - destruct (@scan_step_inv pre l x c lk Hs Hinv) as (Hc & Hlk & Hinv').
    cbn [scan_ranks map]. rewrite Hc. f_equal.
    inversion Hs as [|? ? Hs' _]; subst.
    specialize (IH (pre ++ [x]) _ _ Hs' Hinv').
    rewrite length_app in IH. cbn [length] in IH.
    replace (Z.of_nat (length pre + 1)) with (Z.of_nat (length pre) + 1)%Z in IH by lia.
    rewrite <- Hc. rewrite IH.
    apply map_ext. intros m. now rewrite <- app_assoc.
Qed.

Lemma assign_ranks_sorted (l : list meta) :
  StronglySorted totals_le l ->
  assign_ranks l = map (fun m => VInt (rank_of (totals m) l) :: base_row m) l.
Proof.
  intros Hs. rewrite assign_ranks_scan.
  exact (@scan_ranks_sorted l [] 0%Z None Hs eq_refl).
Qed.

(* ------------------------------------------------------------------ *)
(** ** The ranked table, row by row                                    *)
(* ------------------------------------------------------------------ *)

Lemma ranking_le_totals_le (a b : meta) :
  key_le ranking_key ranking_cmp a b -> totals_le a b.
Proof.
  unfold key_le, totals_le, outranksb, cmp_ltb, ranking_cmp, ranking_key, totals.
  unfold lex_cmp at 1 2. cbn [fst snd]. unfold contribution_key. cbn [fst snd].
  destruct (num_pair_cmp _ _); simpl; auto.
Qed.

Lemma sorted_meta_totals_sorted (player_data : player_dict) (k : Z) :
  StronglySorted totals_le (sorted_meta player_data k).
Proof.
  unfold sorted_meta.
  eapply StronglySorted_weaken_in; [|apply list_sort_sorted; typeclasses eauto].
  intros a b _ _. apply ranking_le_totals_le.
Qed.

Lemma sorted_meta_perm (player_data : player_dict) (k : Z) :
  Permutation (sorted_meta player_data k) (rows_with_meta player_data k).
Proof. apply list_sort_perm. Qed.

(** The rows before the final sort: each player's base row behind the
    competition rank of the player's totals. *)
Lemma assign_ranks_sorted_meta (player_data : player_dict) (k : Z) :
  assign_ranks (sorted_meta player_data k)
  = map (fun m => VInt (rank_of (totals m) (rows_with_meta player_data k))
                    :: base_row m)
        (sorted_meta player_data k).
Proof.
  rewrite assign_ranks_sorted by apply sorted_meta_totals_sorted.
  apply map_ext. intros m.
  now rewrite (rank_of_perm _ (sorted_meta_perm player_data k)).
Qed.

Lemma ranked_rows_perm (player_data : player_dict) (k : Z) :
  Permutation (snd (compute_top_k_and_totals player_data k))
    (map (fun m => VInt (rank_of (totals m) (rows_with_meta player_data k))
                    :: base_row m)
         (rows_with_meta player_data k)).
Proof.
  unfold compute_top_k_and_totals. cbn [snd].
  rewrite list_sort_perm, assign_ranks_sorted_meta.
  apply Permutation_map, sorted_meta_perm.
Qed.

(** The ranked table holds exactly the rows [expected_rows], in some
    order. *)
Lemma output_rows_perm (player_data : player_dict) (k : Z) :
  (0 <= k)%Z ->
  Permutation (snd (compute_top_k_and_totals player_data k))
              (expected_rows k player_data).
Proof.
  intros Hk. rewrite ranked_rows_perm.
  unfold expected_rows, rows_with_meta, entry_rank. rewrite map_map.
  apply Permutation_refl'. apply map_ext. intros e.
  rewrite player_meta_totals. now apply player_meta_row.
Qed.

Lemma output_rows_in (player_data : player_dict) (k : Z) (r : list value) :
  (0 <= k)%Z ->
  In r (snd (compute_top_k_and_totals player_data k)) <->
  exists e, In e player_data /\ r = player_row k (entry_rank k player_data e) e.
Proof.
  intros Hk. split.
  - intros H. apply (Permutation_in _ (output_rows_perm player_data Hk)) in H.
    unfold expected_rows in H. apply in_map_iff in H.
    destruct H as (e & <- & He). eauto.
  - intros (e & He & ->).
    apply (Permutation_in _ (Permutation_sym (output_rows_perm player_data Hk))).
    unfold expected_rows. apply in_map_iff. eauto.
Qed.


Lemma player_row_identity (k rank : Z) (e : player_key * player_lists) :
  row_identity (player_row k rank e) = fst e.
Proof. destruct e as [[l f] v]. reflexivity. Qed.




(* ------------------------------------------------------------------ *)
(** ** Shape of the table: headers and rows                            *)
(* ------------------------------------------------------------------ *)

Lemma headers_length (k : Z) : length (headers k) = Z.to_nat k + 7.
Proof.
  unfold headers, points_cols, py_range.
  rewrite !length_app, !length_map, length_seq. cbn [length]. lia.
Qed.

Lemma points_slots_length (k : Z) (kept : list (num * num)) :
  length kept <= Z.to_nat k -> length (points_slots k kept) = Z.to_nat k.
Proof.
  intros H. unfold points_slots.
  rewrite length_app, !length_map, repeat_length. lia.
Qed.

Lemma row_fields_length (rank : Z) (id : player_key) (count : nat)
    (slots : list value) (score points : num) :
  length (row_fields rank id count slots score points) = length slots + 6.
Proof. unfold row_fields. cbn [length app]. rewrite length_app. cbn [length]. lia. Qed.

Lemma top_combined_le (k : Z) (scores points : list num) :
  (0 <= k)%Z -> length (top_combined k scores points) <= Z.to_nat k.
Proof. intros Hk. rewrite top_combined_length by assumption. lia. Qed.

(** C1. For every player mapping and every positive K, each row of the
    ranked table lists its fields in the fixed order rank, surname, given
    name, play count, K points slots, total score, total points, which
    makes K + 6 fields, while the header list has K + 7 entries: the
    entry "Totaux" has no field under it, so every row is one field
    shorter than the headers. *)
Theorem rows_one_field_shorter_than_headers (player_data : player_dict) (k : Z) :
  (0 < k)%Z ->
  length (fst (compute_top_k_and_totals player_data k)) = Z.to_nat k + 7 /\
  Forall (fun r =>
            (exists rank id count slots score points,
                r = row_fields rank id count slots score points /\
                length slots = Z.to_nat k) /\
            length r = Z.to_nat k + 6 /\
            length r <> length (fst (compute_top_k_and_totals player_data k)))
         (snd (compute_top_k_and_totals player_data k)).
Proof.
  intros Hk.
  assert (Hh : length (fst (compute_top_k_and_totals player_data k)) = Z.to_nat k + 7).
  { cbn [compute_top_k_and_totals fst]. apply headers_length. }
  split; [exact Hh|].
  apply Forall_forall. intros r Hr.
  apply output_rows_in in Hr; [|lia]. destruct Hr as (e & _ & ->).
  assert (Hslots : length (points_slots k (top_combined k (fst (snd e)) (snd (snd e))))
                   = Z.to_nat k).
  { apply points_slots_length, top_combined_le. lia. }
  assert (Hlen : length (player_row k (entry_rank k player_data e) e) = Z.to_nat k + 6).
  { unfold player_row. now rewrite row_fields_length, Hslots. }
  split; [|split].
  - unfold player_row. do 6 eexists. split; [reflexivity|exact Hslots].
  - exact Hlen.
  - rewrite Hlen, Hh. lia.
Qed.

Lemma rows_one_field_shorter_than_headers_witness :
  (0 < 3)%Z /\
  length (fst (compute_top_k_and_totals example_players 3)) = 10 /\
  Forall (fun r =>
            (exists rank id count slots score points,
                r = row_fields rank id count slots score points /\
                length slots = 3) /\
            length r = 9 /\
            length r <> length (fst (compute_top_k_and_totals example_players 3)))
         (snd (compute_top_k_and_totals example_players 3)).
Proof.
  split; [reflexivity|].
  apply (@rows_one_field_shorter_than_headers example_players 3). reflexivity.
Defined.

(** The table of the four sample players for K = 3: ten headers over
    rows of nine fields. *)
Example example_table :
  compute_top_k_and_totals example_players 3
  = (["Classement"; "Nom"; "Prénom"; "Participations"; "1"; "2"; "3";
      "Totaux"; "Scores"; "Points"]%string,
     [ [VInt 1; VStr "Bernard"; VStr "Anne"; VInt 1;
        VNum (num_of_Z 20); blank; blank; VNum (num_of_Z 80); VNum (num_of_Z 20)];
       [VInt 1; VStr "Durand"; VStr "Zoe"; VInt 2;
        VNum (num_of_Z 10); VNum (num_of_Z 10); blank;
        VNum (num_of_Z 80); VNum (num_of_Z 20)];
       [VInt 1; VStr "Martin"; VStr "Luc"; VInt 1;
        VNum (num_of_Z 20); blank; blank; VNum (num_of_Z 80); VNum (num_of_Z 20)];
       [VInt 4; VStr "Petit"; VStr "Max"; VInt 2;
        VNum (num_of_Z 7); VNum (num_of_Z 1); blank;
        VNum (num_of_Z 15); VNum (num_of_Z 8)] ]).
Proof. vm_compute. reflexivity. Qed.

(* ------------------------------------------------------------------ *)
(** ** Rank assignment, position by position                           *)
(* ------------------------------------------------------------------ *)

Lemma rank_step_last_key_totals (c i : Z) (lk : option (num * num)) (x : meta) :
  last_key (rank_step (RankState c lk []) (i, x)) = Some (totals x).
Proof.
  unfold rank_step. cbn [last_key classement]. fold (totals x).
  destruct lk as [k0|]; [|reflexivity].
  destruct (totals_eqb (totals x) k0) eqn:E; cbn [negb]; [|reflexivity].
  apply totals_eqb_eq in E. now subst.
Qed.

Lemma rank_step_classement_after (c i : Z) (p x : meta) :
  classement (rank_step (RankState c (Some (totals p)) []) (i, x))
  = if totals_eqb (totals x) (totals p) then c else (i + 1)%Z.
Proof.
  unfold rank_step. cbn [last_key classement]. fold (totals x).
  now destruct (totals_eqb (totals x) (totals p)).
Qed.

(** The rank the loop gives at position [j], from the row before it. *)
Lemma scan_ranks_local (l : list meta) (i0 c : Z) (lk : option (num * num))
    (j : nat) (m : meta) :
  nth_error l j = Some m ->
  exists c',
    nth_error (scan_ranks i0 c lk l) j = Some (VInt c' :: base_row m) /\
    match j with
    | O => c' = classement (rank_step (RankState c lk []) (i0, m))
    | S j' =>
        forall p, nth_error l j' = Some p ->
          (totals m <> totals p -> c' = (i0 + Z.of_nat j + 1)%Z) /\
          (totals m = totals p ->
           nth_error (map row_rank (scan_ranks i0 c lk l)) j' = Some c')
    end.
Proof.
  revert i0 c lk j. induction l as [|x l IH]; intros i0 c lk j Hj.
  - destruct j; discriminate.
  - destruct j as [|j'].
    + cbn [nth_error] in Hj. injection Hj as ->.
      eexists. split; reflexivity.
    + cbn [nth_error] in Hj. cbn [scan_ranks].
      set (st := rank_step (RankState c lk []) (i0, x)).
      destruct (IH (i0 + 1)%Z (classement st) (last_key st) j' Hj) as (c' & Hrow & Hloc).
      exists c'. split; [exact Hrow|].
      intros p Hp. destruct j' as [|j''].
      * cbn [nth_error] in Hp. injection Hp as ->.
        unfold st in Hloc. rewrite rank_step_last_key_totals in Hloc.
        rewrite rank_step_classement_after in Hloc.
        fold st in Hloc. cbn [map nth_error row_rank].
        destruct (totals_eqb (totals m) (totals p)) eqn:E.
        -- apply totals_eqb_eq in E. split; [congruence|]. intros _. now subst c'.
        -- split; [intros _; subst c'; lia|].
           intros Heq. apply totals_eqb_eq in Heq. congruence.
      * cbn [nth_error] in Hp. destruct (Hloc p Hp) as [H1 H2].
        split.
        -- intros Hne. rewrite (H1 Hne). lia.
        -- intros Heq. cbn [map nth_error]. now apply H2.
Qed.

(** C2. In the totals-sorted sequence the first player gets rank 1; a
    later player gets the 1-based position as rank when the pair
    (total_points, total_score) differs from the previous player's, and
    the previous player's rank when it does not. *)
Theorem rank_is_position_or_previous_rank (player_data : player_dict) (k : Z)
    (i : nat) (m : meta) :
  nth_error (sorted_meta player_data k) i = Some m ->
  exists rank,
    nth_error (assign_ranks (sorted_meta player_data k)) i
    = Some (VInt rank :: base_row m) /\
    match i with
    | O => rank = 1%Z
    | S j =>
        forall p, nth_error (sorted_meta player_data k) j = Some p ->
          (totals m <> totals p -> rank = (Z.of_nat i + 1)%Z) /\
          (totals m = totals p ->
           nth_error (map row_rank (assign_ranks (sorted_meta player_data k))) j
           = Some rank)
    end.
Proof.
  intros Hi. rewrite assign_ranks_scan.
  destruct (@scan_ranks_local _ 0%Z 0%Z None i m Hi) as (c' & Hrow & Hloc).
  exists c'. split; [exact Hrow|].
  destruct i as [|j]; [exact Hloc|].
  intros p Hp. destruct (Hloc p Hp) as [H1 H2]. split.
  - intros Hne. rewrite (H1 Hne). lia.
  - exact H2.
Qed.

(** Equal points, scores 50 and 60, K = 15: the higher score ranks first. *)
Example example_score_tiebreak :
  map (fun r => (row_rank r, row_identity r))
      (snd (compute_top_k_and_totals example_two_players 15))
  = [(1%Z, ("B", "b")%string); (2%Z, ("A", "a")%string)].
Proof. vm_compute. reflexivity. Qed.

(** The four sample players: ranks 1, 1, 1, 4. *)
Example example_ranks :
  map row_rank (assign_ranks (sorted_meta example_players 15))
  = [1; 1; 1; 4]%Z.
Proof. vm_compute. reflexivity. Qed.

Lemma rank_is_position_or_previous_rank_witness :
  nth_error (sorted_meta example_players 15) 3
  = Some (player_meta 15 example_last_entry) /\
  exists rank,
    nth_error (assign_ranks (sorted_meta example_players 15)) 3
    = Some (VInt rank :: base_row (player_meta 15 example_last_entry)) /\
    forall p, nth_error (sorted_meta example_players 15) 2 = Some p ->
      (totals (player_meta 15 example_last_entry) <> totals p ->
       rank = (Z.of_nat 3 + 1)%Z) /\
      (totals (player_meta 15 example_last_entry) = totals p ->
       nth_error (map row_rank (assign_ranks (sorted_meta example_players 15))) 2
       = Some rank).
Proof.
  split; [vm_compute; reflexivity|].
  apply (@rank_is_position_or_previous_rank example_players 15 3
           (player_meta 15 example_last_entry)).
  vm_compute. reflexivity.
Defined.

(* ------------------------------------------------------------------ *)
(** ** Top-K selection                                                 *)
(* ------------------------------------------------------------------ *)










(** With K = 1 the sample player with contributions (points 1, score
    10) and (points 7, score 5) keeps the second one. *)
Example example_top_1 :
  top_combined 1 (fst (snd example_last_entry)) (snd (snd example_last_entry))
  = [(num_of_Z 7, num_of_Z 5)].
Proof. vm_compute. reflexivity. Qed.

(* ------------------------------------------------------------------ *)
(** ** Ranks in the final order                                        *)
(* ------------------------------------------------------------------ *)


Lemma final_rows_sorted (player_data : player_dict) (k : Z) :
  StronglySorted (key_le final_key final_cmp)
                 (snd (compute_top_k_and_totals player_data k)).
Proof.
  unfold compute_top_k_and_totals. cbn [snd].
  exact (list_sort_sorted final_key (cmp:=final_cmp) _).
Qed.






(* ------------------------------------------------------------------ *)
(** ** Determinism                                                     *)
(* ------------------------------------------------------------------ *)







(* ------------------------------------------------------------------ *)
(** ** K = 0                                                           *)
(* ------------------------------------------------------------------ *)

Lemma player_row_zero (rank : Z) (e : player_key * player_lists) :
  player_row 0 rank e
  = [VInt rank; VStr (fst (fst e)); VStr (snd (fst e)); VInt 0;
     VNum (Q2Qc 0); VNum (Q2Qc 0)].
Proof. reflexivity. Qed.

Lemma entry_rank_zero (player_data : player_dict) (e : player_key * player_lists) :
  entry_rank 0 player_data e = 1%Z.
Proof.
  unfold entry_rank, rank_of. rewrite filter_length_none; [reflexivity|].
  intros m Hm. unfold rows_with_meta in Hm. apply in_map_iff in Hm.
  destruct Hm as (e' & <- & _). rewrite player_meta_totals.
  apply outranksb_irrefl.
Qed.

Lemma final_le_name_le (a b : player_key) :
  key_le final_key final_cmp (zero_row a) (zero_row b) ->
  cmp_ltb name_cmp b a = false.
Proof.
  destruct a as [la fa], b as [lb fb].
  unfold key_le, zero_row, final_key, cmp_ltb, final_cmp, name_cmp.
  unfold lex_cmp. cbn [fst snd]. now rewrite Z.compare_refl.
Qed.

(** C10. With K = 0 the ranker returns the seven headers without slot
    columns and one row per player of the mapping, each with rank 1,
    play count 0, no points slot and both totals zero; the rows are
    ordered by surname, then given name. *)
Theorem k_zero_rows (player_data : player_dict) :
  fst (compute_top_k_and_totals player_data 0)
  = ["Classement"; "Nom"; "Prénom"; "Participations";
     "Totaux"; "Scores"; "Points"]%string /\
  Permutation (snd (compute_top_k_and_totals player_data 0))
              (map (fun e => zero_row (fst e)) player_data) /\
  StronglySorted
    (fun a b => cmp_ltb name_cmp (row_identity b) (row_identity a) = false)
    (snd (compute_top_k_and_totals player_data 0)).
Proof.
  assert (Hperm : Permutation (snd (compute_top_k_and_totals player_data 0))
                    (map (fun e => zero_row (fst e)) player_data)).
  { rewrite output_rows_perm by lia. unfold expected_rows.
    apply Permutation_refl'. apply map_ext. intros e.
    now rewrite entry_rank_zero, player_row_zero. }
  split; [reflexivity|]. split; [exact Hperm|].
  eapply StronglySorted_weaken_in; [|apply final_rows_sorted].
  intros a b Ha Hb Hle.
  apply (Permutation_in _ Hperm) in Ha. apply (Permutation_in _ Hperm) in Hb.
  apply in_map_iff in Ha, Hb.
  destruct Ha as (ea & <- & _), Hb as (eb & <- & _).
  apply final_le_name_le in Hle.
  destruct ea as [[la fa] va], eb as [[lb fb] vb]. exact Hle.
Qed.

(* ------------------------------------------------------------------ *)
(** ** The mapping operations                                          *)
(* ------------------------------------------------------------------ *)

Lemma key_eqb_eq (a b : player_key) : key_eqb a b = true <-> a = b.
Proof.
  destruct a as [a1 a2], b as [b1 b2]. unfold key_eqb. cbn [fst snd].
  rewrite andb_true_iff, !String.eqb_eq. split.
  - intros [-> ->]. reflexivity.
  - intros H. injection H as -> ->. auto.
Qed.

Lemma key_eqb_refl (a : player_key) : key_eqb a a = true.
Proof. now apply key_eqb_eq. Qed.

Lemma key_eqb_neq (a b : player_key) : key_eqb a b = false <-> a <> b.
Proof.
  rewrite <- key_eqb_eq. destruct (key_eqb a b); split; congruence.
Qed.

Lemma dict_mem_get (key : player_key) (d : player_dict) :
  dict_mem key d = true <-> dict_get key d <> None.
Proof.
  induction d as [|[k' v] d IH]; cbn [dict_mem existsb dict_get fst].
  - split; congruence.
  - destruct (key_eqb key k'); cbn [orb]; [split; congruence|exact IH].
Qed.

Lemma dict_get_in_keys (key : player_key) (d : player_dict) :
  dict_get key d <> None <-> In key (map fst d).
Proof.
  induction d as [|[k' v] d IH]; cbn [dict_get map fst In].
  - split; [congruence|contradiction].
  - destruct (key_eqb key k') eqn:E.
    + apply key_eqb_eq in E. subst. split; [auto|congruence].
    + apply key_eqb_neq in E. rewrite IH. split; [auto|].
      intros [H|H]; [congruence|assumption].
Qed.

Lemma dict_get_in (key : player_key) (v : player_lists) (d : player_dict) :
  NoDup (map fst d) -> In (key, v) d -> dict_get key d = Some v.
Proof.
  induction d as [|[k' v'] d IH]; cbn [map fst dict_get]; intros Hnd Hin.
  - contradiction.
  - inversion Hnd as [|? ? Hnotin Hnd']; subst.
    destruct Hin as [Heq|Hin].
    + injection Heq as -> ->. now rewrite key_eqb_refl.
    + destruct (key_eqb key k') eqn:E.
      * apply key_eqb_eq in E. subst. exfalso. apply Hnotin.
        change k' with (fst (k', v)). now apply in_map.
      * now apply IH.
Qed.

Lemma dict_get_some_in (key : player_key) (v : player_lists) (d : player_dict) :
  dict_get key d = Some v -> In (key, v) d.
Proof.
  induction d as [|[k' v'] d IH]; cbn [dict_get]; [discriminate|].
  destruct (key_eqb key k') eqn:E.
  - apply key_eqb_eq in E. subst. intros H. injection H as ->. now left.
  - intros H. right. now apply IH.
Qed.

Lemma dict_adjust_keys (key : player_key) (f : player_lists -> player_lists)
    (d : player_dict) :
  map fst (dict_adjust key f d) = map fst d.
Proof.
  induction d as [|[k' v] d IH]; cbn [dict_adjust map fst]; [reflexivity|].
  destruct (key_eqb key k'); cbn [map fst]; [reflexivity|now rewrite IH].
Qed.

Lemma dict_get_adjust (key key' : player_key) (f : player_lists -> player_lists)
    (d : player_dict) :
  dict_get key (dict_adjust key' f d)
  = if key_eqb key key' then option_map f (dict_get key d) else dict_get key d.
Proof.
  induction d as [|[k v] d IH]; cbn [dict_adjust dict_get].
  - now destruct (key_eqb key key').
  - destruct (key_eqb key' k) eqn:E1; cbn [dict_get].
    + apply key_eqb_eq in E1. subst k.
      destruct (key_eqb key key'); reflexivity.
    + destruct (key_eqb key k) eqn:E2; [|exact IH].
      apply key_eqb_eq in E2. subst k.
      destruct (key_eqb key key') eqn:E3; [|reflexivity].
      apply key_eqb_eq in E3. subst. rewrite key_eqb_refl in E1. discriminate.
Qed.

Lemma dict_set_new_keys (key : player_key) (v : player_lists) (d : player_dict) :
  dict_mem key d = false -> map fst (dict_set key v d) = map fst d ++ [key].
Proof.
  induction d as [|[k' v'] d IH]; cbn [dict_mem existsb dict_set map fst app].
  - reflexivity.
  - destruct (key_eqb key k'); cbn [orb]; [discriminate|].
    intros H. cbn [map fst]. now rewrite IH.
Qed.

Lemma dict_get_set_new (key key' : player_key) (v : player_lists) (d : player_dict) :
  dict_mem key' d = false ->
  dict_get key (dict_set key' v d)
  = if key_eqb key key' then Some v else dict_get key d.
Proof.
  induction d as [|[k v'] d IH]; cbn [dict_mem existsb dict_set dict_get fst].
  - reflexivity.
  - destruct (key_eqb key' k) eqn:E1; cbn [orb]; [discriminate|].
    intros H. cbn [dict_get].
    destruct (key_eqb key k) eqn:E2; [|now apply IH].
    apply key_eqb_eq in E2. subst k.
    destruct (key_eqb key key') eqn:E3; [|reflexivity].
    apply key_eqb_eq in E3. subst. rewrite key_eqb_refl in E1. discriminate.
Qed.

(** Appending a contribution extends the lists of its key and leaves
    every other key alone. *)
Lemma dict_get_append (key : player_key) (d : player_dict)
    (c : player_key * (num * num)) :
  dict_get key (dict_append d c)
  = if key_eqb key (fst c)
    then Some (fst (dict_lists (fst c) d) ++ [fst (snd c)],
               snd (dict_lists (fst c) d) ++ [snd (snd c)])
    else dict_get key d.
Proof.
  unfold dict_append, dict_lists. rewrite !dict_get_adjust.
  destruct (key_eqb key (fst c)) eqn:E.
  - apply key_eqb_eq in E. subst key.
    destruct (dict_mem (fst c) d) eqn:Hmem; cbn [negb].
    + apply dict_mem_get in Hmem.
      destruct (dict_get (fst c) d) as [v|]; [reflexivity|congruence].
    + rewrite dict_get_set_new, key_eqb_refl by assumption.
      destruct (dict_get (fst c) d) as [v|] eqn:Hget; [|reflexivity].
      assert (dict_mem (fst c) d = true) by (apply dict_mem_get; congruence).
      congruence.
  - destruct (dict_mem (fst c) d) eqn:Hmem; cbn [negb]; [reflexivity|].
    now rewrite dict_get_set_new, E by assumption.
Qed.

Lemma dict_append_keys (d : player_dict) (c : player_key * (num * num)) :
  map fst (dict_append d c)
  = if dict_mem (fst c) d then map fst d else map fst d ++ [fst c].
Proof.
  unfold dict_append. rewrite !dict_adjust_keys.
  destruct (dict_mem (fst c) d) eqn:E; cbn [negb]; [reflexivity|].
  now apply dict_set_new_keys.
Qed.

Lemma dict_append_nodup (d : player_dict) (c : player_key * (num * num)) :
  NoDup (map fst d) -> NoDup (map fst (dict_append d c)).
Proof.
  intros Hnd. rewrite dict_append_keys.
  destruct (dict_mem (fst c) d) eqn:E; [assumption|].
  apply NoDup_app; [assumption | repeat constructor; intros [] |].
  intros a Ha [<-|[]].
  assert (dict_mem (fst c) d = true); [|congruence].
  apply dict_mem_get, dict_get_in_keys. assumption.
Qed.

Lemma dict_lists_append (key : player_key) (d : player_dict)
    (c : player_key * (num * num)) :
  dict_lists key (dict_append d c)
  = if key_eqb key (fst c)
    then (fst (dict_lists key d) ++ [fst (snd c)],
          snd (dict_lists key d) ++ [snd (snd c)])
    else dict_lists key d.
Proof.
  unfold dict_lists at 1. rewrite dict_get_append.
  destruct (key_eqb key (fst c)) eqn:E; [|reflexivity].
  apply key_eqb_eq in E. now subst.
Qed.

Lemma collect_cons (key : player_key) (c : player_key * (num * num))
    (cs : list (player_key * (num * num))) :
  collect key (c :: cs)
  = if key_eqb key (fst c) then snd c :: collect key cs else collect key cs.
Proof.
  unfold collect. cbn [filter]. now destruct (key_eqb key (fst c)).
Qed.

Lemma collect_nil_iff (key : player_key) (cs : list (player_key * (num * num))) :
  collect key cs = [] <-> ~ In key (map fst cs).
Proof.
  induction cs as [|c cs IH]; [cbn; tauto|].
  rewrite collect_cons. cbn [map In].
  destruct (key_eqb key (fst c)) eqn:E.
  - apply key_eqb_eq in E. subst. split; [discriminate|]. intros H. exfalso. auto.
  - apply key_eqb_neq in E. rewrite IH. split.
    + intros H [H'|H']; [congruence|auto].
    + intros H H'. apply H. now right.
Qed.

(** After a run of contributions the lists of a key are its old lists
    followed by the scores and points filed under it, in order. *)
Lemma fold_append_lists (key : player_key)
    (cs : list (player_key * (num * num))) (d : player_dict) :
  dict_lists key (fold_left dict_append cs d)
  = (fst (dict_lists key d) ++ map fst (collect key cs),
     snd (dict_lists key d) ++ map snd (collect key cs)).
Proof.
  revert d. induction cs as [|c cs IH]; intros d; cbn [fold_left].
  - cbn. rewrite !app_nil_r. now destruct (dict_lists key d).
  - rewrite IH, dict_lists_append, collect_cons.
    destruct (key_eqb key (fst c)); [|reflexivity].
    cbn [fst snd map]. now rewrite <- !app_assoc.
Qed.

Lemma fold_append_keys (key : player_key)
    (cs : list (player_key * (num * num))) (d : player_dict) :
  In key (map fst (fold_left dict_append cs d))
  <-> In key (map fst d) \/ In key (map fst cs).
Proof.
  revert d. induction cs as [|c cs IH]; intros d; cbn [fold_left map In].
  - tauto.
  - rewrite IH, dict_append_keys.
    destruct (dict_mem (fst c) d) eqn:E.
    + apply dict_mem_get, dict_get_in_keys in E.
      split; [tauto|]. intros [H|[<-|H]]; auto.
    + rewrite in_app_iff. cbn [In]. tauto.
Qed.

Lemma fold_append_nodup (cs : list (player_key * (num * num))) (d : player_dict) :
  NoDup (map fst d) -> NoDup (map fst (fold_left dict_append cs d)).
Proof.
  revert d. induction cs as [|c cs IH]; intros d Hnd; cbn [fold_left].
  - assumption.
  - apply IH. now apply dict_append_nodup.
Qed.

(** An entry of the mapping built from scratch holds exactly what was
    filed under its key, which is not nothing. *)
Lemma build_entry (cs : list (player_key * (num * num)))
    (key : player_key) (v : player_lists) :
  In (key, v) (fold_left dict_append cs []) ->
  v = (map fst (collect key cs), map snd (collect key cs)) /\
  collect key cs <> [].
Proof.
  intros Hin. split.
  - assert (Hget : dict_get key (fold_left dict_append cs []) = Some v).
    { apply dict_get_in; [|assumption]. apply fold_append_nodup. constructor. }
    pose proof (fold_append_lists key cs []) as H.
    unfold dict_lists at 1 in H. rewrite Hget in H. exact H.
  - rewrite collect_nil_iff. intros Hno. apply Hno.
    assert (Hk : In key (map fst (fold_left dict_append cs []))).
    { change key with (fst (key, v)). now apply in_map. }
    apply fold_append_keys in Hk. destruct Hk as [[]|Hk]. exact Hk.
Qed.

Lemma filter_all {A : Type} (f : A -> bool) (l : list A) :
  (forall a, In a l -> f a = true) -> filter f l = l.
Proof.
  induction l as [|x l IH]; intros H; cbn [filter]; [reflexivity|].
  rewrite (H x) by now left. f_equal. apply IH. intros a Ha. apply H. now right.
Qed.

(** The closing filter of the aggregator removes nothing from a
    mapping built from scratch. *)
Lemma build_filter (cs : list (player_key * (num * num))) :
  filter (fun e : player_key * player_lists => negb (list_is_empty (fst (snd e))))
         (fold_left dict_append cs [])
  = fold_left dict_append cs [].
Proof.
  apply filter_all. intros [key v] Hin.
  destruct (build_entry cs key v Hin) as [-> Hne]. cbn [fst snd].
  destruct (collect key cs); [congruence|reflexivity].
Qed.

(* ------------------------------------------------------------------ *)
(** ** The aggregator                                                  *)
(* ------------------------------------------------------------------ *)

Section AggregatorFacts.
Variable float_of_str : string -> option num.
Variable str_of_float : num -> string.
Variable strip : string -> string.

Let py_float' := py_float float_of_str.
Let blank_name' := blank_name str_of_float strip.
Let clean_name' := clean_name str_of_float strip.
Let row_step' := row_step float_of_str str_of_float strip.
Let contribution' := contribution float_of_str str_of_float strip.

Lemma clean_name_empty (v : cell_value) :
  string_is_empty (clean_name' v) = blank_name' v.
Proof. destruct v; reflexivity. Qed.

(** The loop body files the contribution of the row, if it has one. *)
Lemma row_step_contribution (d : player_dict) (ln fn sc pt : cell_value) :
  row_step' d ln fn sc pt
  = match contribution' (ln, fn, sc, pt) with
    | Some c => dict_append d c
    | None => d
    end.
Proof.
  unfold row_step', row_step, contribution', contribution.
  fold blank_name' clean_name' py_float'.
  destruct (blank_name' ln && blank_name' fn) eqn:Hblank; [reflexivity|].
  rewrite !clean_name_empty, Hblank.
  destruct sc; try reflexivity;
    (destruct (py_float' _) as [numeric_score|]; [|reflexivity]);
    destruct pt; reflexivity.
Qed.

Lemma fold_rows_contributions (ws : worksheet) (rs : list Z) (d : player_dict) :
  fold_left (sheet_row_step float_of_str str_of_float strip ws) rs d
  = fold_left dict_append
      (flat_map (fun row => match contribution' row with
                            | Some c => [c]
                            | None => []
                            end)
         (map (fun r => (cell ws r COL_LASTNAME_LETTER, cell ws r COL_FIRSTNAME_LETTER,
                         cell ws r COL_SCORE_LETTER, cell ws r COL_POINTS_LETTER))
              rs))
      d.
Proof.
  revert d. induction rs as [|r rs IH]; intros d; [reflexivity|].
  cbn [fold_left map flat_map]. rewrite fold_left_app, IH.
  unfold sheet_row_step. fold row_step'. rewrite row_step_contribution.
  now destruct (contribution' _).
Qed.

Lemma py_range2_empty (start stop : Z) : (stop <= start)%Z -> py_range2 start stop = [].
Proof.
  intros H. unfold py_range2.
  replace (Z.to_nat (stop - start)) with 0 by lia. reflexivity.
Qed.

Lemma sheet_step_contributions (d : player_dict) (ws : worksheet) :
  sheet_step float_of_str str_of_float strip d ws
  = fold_left dict_append
      (flat_map (fun row => match contribution' row with
                            | Some c => [c]
                            | None => []
                            end)
         (sheet_rows ws))
      d.
Proof.
  unfold sheet_step, sheet_rows.
  set (last := Z.min END_ROW_IDX_1BASED _).
  destruct (last <? START_ROW_IDX_1BASED)%Z eqn:E.
  - apply Z.ltb_lt in E. rewrite py_range2_empty by lia. reflexivity.
  - apply fold_rows_contributions.
Qed.

Lemma fold_sheets_contributions (worksheets : list worksheet) (d : player_dict) :
  fold_left (sheet_step float_of_str str_of_float strip) worksheets d
  = fold_left dict_append
      (contributions float_of_str str_of_float strip worksheets) d.
Proof.
  unfold contributions, workbook_rows. fold contribution'.
  revert d. induction worksheets as [|ws wss IH]; intros d; [reflexivity|].
  cbn [fold_left flat_map]. rewrite flat_map_app, fold_left_app, IH.
  now rewrite sheet_step_contributions.
Qed.

(** The aggregated mapping is the one built by filing every
    contribution of the workbook, in sheet order and row order. *)
Lemma parse_contributions (worksheets : list worksheet) :
  parse_excel_all_sheets float_of_str str_of_float strip worksheets
  = fold_left dict_append
      (contributions float_of_str str_of_float strip worksheets) [].
Proof.
  unfold parse_excel_all_sheets. rewrite fold_sheets_contributions.
  apply build_filter.
Qed.

Lemma parse_nodup (worksheets : list worksheet) :
  NoDup (map fst (parse_excel_all_sheets float_of_str str_of_float strip worksheets)).
Proof. rewrite parse_contributions. apply fold_append_nodup. constructor. Qed.

Lemma parse_keys (worksheets : list worksheet) (key : player_key) :
  In key (map fst (parse_excel_all_sheets float_of_str str_of_float strip worksheets))
  <-> In key (map fst (contributions float_of_str str_of_float strip worksheets)).
Proof.
  rewrite parse_contributions, fold_append_keys. cbn [map In]. tauto.
Qed.
End AggregatorFacts.

Section AggregatorClaims.
Variable float_of_str : string -> option num.
Variable str_of_float : num -> string.
Variable strip : string -> string.



(** C9. In the mapping the aggregator returns, the scores list and the
    points list of every player have the same length and are not empty:
    position by position they are the score and the points of the
    player's accepted rows, in encounter order. *)
Theorem aggregated_lists_aligned (worksheets : list worksheet)
    (key : player_key) (scores points : list num) :
  In (key, (scores, points))
     (parse_excel_all_sheets float_of_str str_of_float strip worksheets) ->
  length scores = length points /\
  scores <> [] /\
  scores = map fst (contributions_of float_of_str str_of_float strip key worksheets) /\
  points = map snd (contributions_of float_of_str str_of_float strip key worksheets).
Proof.
  rewrite parse_contributions. intros Hin.
  apply build_entry in Hin. destruct Hin as [Hv Hne].
  fold (contributions_of float_of_str str_of_float strip key worksheets) in Hv, Hne.
  injection Hv as -> ->.
  repeat split.
  - now rewrite !length_map.
  - intros H. apply map_eq_nil in H. contradiction.
Qed.

(** C7. The ranked table has one row per distinct player identity with
    at least one accepted row: as many rows as the aggregated mapping
    has players, no identity twice, and an identity is in the table
    exactly when some row of the workbook contributes to it. *)
Theorem one_row_per_contributing_player (worksheets : list worksheet) (k : Z) :
  (0 < k)%Z ->
  let player_data :=
    parse_excel_all_sheets float_of_str str_of_float strip worksheets in
  let rows := snd (compute_top_k_and_totals player_data k) in
  length rows = length player_data /\
  length rows
  = length (nodup player_key_eq_dec
              (map fst (contributions float_of_str str_of_float strip worksheets))) /\
  NoDup (map row_identity rows) /\
  forall key,
    In key (map row_identity rows) <->
    contributions_of float_of_str str_of_float strip key worksheets <> [].
Proof.
  intros Hk player_data rows.
  assert (Hperm : Permutation (map row_identity rows) (map fst player_data)).
  { unfold rows. rewrite output_rows_perm by lia.
    unfold expected_rows. rewrite map_map.
    apply Permutation_refl'. apply map_ext. intros e. apply player_row_identity. }
  assert (Hnd : NoDup (map row_identity rows)).
  { apply (Permutation_NoDup (Permutation_sym Hperm)). apply parse_nodup. }
  assert (Hkeys : forall key,
             In key (map row_identity rows) <->
             In key (map fst (contributions float_of_str str_of_float strip worksheets))).
  { intros key. rewrite <- parse_keys. fold player_data.
    split; apply Permutation_in; [exact Hperm | exact (Permutation_sym Hperm)]. }
  split; [|split; [|split]].
  - apply Permutation_length in Hperm. now rewrite !length_map in Hperm.
  - rewrite <- (length_map row_identity rows).
    apply Permutation_length, NoDup_Permutation;
      [exact Hnd | apply NoDup_nodup |].
    intros key. rewrite nodup_In. apply Hkeys.
  - exact Hnd.
  - intros key. rewrite Hkeys. unfold contributions_of.
    fold (collect key (contributions float_of_str str_of_float strip worksheets)).
    rewrite collect_nil_iff.
    destruct (in_dec player_key_eq_dec key
                (map fst (contributions float_of_str str_of_float strip worksheets)));
      tauto.
Qed.
End AggregatorClaims.

(* ------------------------------------------------------------------ *)
(** ** The sample workbook                                             *)
(* ------------------------------------------------------------------ *)



(** What the aggregator returns for the sample workbook. *)
Example sample_workbook_parsed :
  parse_excel_all_sheets sample_float_of_str sample_str_of_float sample_strip
    sample_workbook
  = [ (("Martin", "Luc")%string,
       ([num_of_Z 80; num_of_Z 75], [num_of_Z 20; num_of_Z 0]));
      (("Petit", "Max")%string, ([num_of_Z 10], [num_of_Z 0])) ].
Proof. vm_compute. reflexivity. Qed.

Lemma aggregated_lists_aligned_witness :
  In (("Martin", "Luc")%string,
      ([num_of_Z 80; num_of_Z 75], [num_of_Z 20; num_of_Z 0]))
     (parse_excel_all_sheets sample_float_of_str sample_str_of_float sample_strip
        sample_workbook) /\
  length [num_of_Z 80; num_of_Z 75] = length [num_of_Z 20; num_of_Z 0] /\
  [num_of_Z 80; num_of_Z 75] <> [] /\
  [num_of_Z 80; num_of_Z 75]
  = map fst (contributions_of sample_float_of_str sample_str_of_float sample_strip
               ("Martin", "Luc")%string sample_workbook) /\
  [num_of_Z 20; num_of_Z 0]
  = map snd (contributions_of sample_float_of_str sample_str_of_float sample_strip
               ("Martin", "Luc")%string sample_workbook).
Proof.
  assert (Hin : In (("Martin", "Luc")%string,
                    ([num_of_Z 80; num_of_Z 75], [num_of_Z 20; num_of_Z 0]))
                   (parse_excel_all_sheets sample_float_of_str sample_str_of_float
                      sample_strip sample_workbook)).
  { vm_compute. left. reflexivity. }
  split; [exact Hin|].
  exact (@aggregated_lists_aligned sample_float_of_str sample_str_of_float
           sample_strip sample_workbook ("Martin", "Luc")%string
           [num_of_Z 80; num_of_Z 75] [num_of_Z 20; num_of_Z 0] Hin).
Defined.

Lemma one_row_per_contributing_player_witness :
  (0 < 15)%Z /\
  length (snd (compute_top_k_and_totals
                 (parse_excel_all_sheets sample_float_of_str sample_str_of_float
                    sample_strip sample_workbook) 15))
  = length (parse_excel_all_sheets sample_float_of_str sample_str_of_float
              sample_strip sample_workbook) /\
  length (snd (compute_top_k_and_totals
                 (parse_excel_all_sheets sample_float_of_str sample_str_of_float
                    sample_strip sample_workbook) 15))
  = length (nodup player_key_eq_dec
              (map fst (contributions sample_float_of_str sample_str_of_float
                          sample_strip sample_workbook))) /\
  NoDup (map row_identity
           (snd (compute_top_k_and_totals
                   (parse_excel_all_sheets sample_float_of_str sample_str_of_float
                      sample_strip sample_workbook) 15))) /\
  forall key,
    In key (map row_identity
              (snd (compute_top_k_and_totals
                      (parse_excel_all_sheets sample_float_of_str
                         sample_str_of_float sample_strip sample_workbook) 15))) <->
    contributions_of sample_float_of_str sample_str_of_float sample_strip key
      sample_workbook <> [].
Proof.
  split; [reflexivity|].
  apply (@one_row_per_contributing_player sample_float_of_str sample_str_of_float
           sample_strip sample_workbook 15).
  reflexivity.
Defined.

(** The sample workbook ranked with the K of the program. *)
Example sample_workbook_ranks :
  map (fun r => (row_rank r, row_identity r))
      (snd (run_core sample_float_of_str sample_str_of_float sample_strip
              sample_workbook))
  = [(1%Z, ("Martin", "Luc")%string); (2%Z, ("Petit", "Max")%string)].
Proof. vm_compute. reflexivity. Qed.

(* ================================================================== *)
(** * Further properties of the aggregator                             *)
(* ================================================================== *)

Lemma py_range2_in (start stop r : Z) :
  In r (py_range2 start stop) -> (start <= r < stop)%Z.
Proof.
  unfold py_range2. rewrite in_map_iff. intros (i & <- & Hi).
  apply in_seq in Hi. lia.
Qed.

Lemma py_range2_length (start stop : Z) :
  length (py_range2 start stop) = Z.to_nat (stop - start).
Proof. unfold py_range2. now rewrite length_map, length_seq. Qed.

Lemma collect_app (key : player_key) (cs1 cs2 : list (player_key * (num * num))) :
  collect key (cs1 ++ cs2) = collect key cs1 ++ collect key cs2.
Proof. unfold collect. now rewrite filter_app, map_app. Qed.

Lemma total_contributions_cons (e : player_key * player_lists) (d : player_dict) :
  total_contributions (e :: d) = length (fst (snd e)) + total_contributions d.
Proof. reflexivity. Qed.

Lemma total_contributions_adjust_scores (key : player_key) (x : num) (d : player_dict) :
  dict_mem key d = true ->
  total_contributions (dict_adjust key (fun v => (fst v ++ [x], snd v)) d)
  = S (total_contributions d).
Proof.
  induction d as [|[k' v] d IH]; cbn [dict_mem existsb dict_adjust fst].
  - discriminate.
  - destruct (key_eqb key k') eqn:E; cbn [orb];
      rewrite !total_contributions_cons; cbn [fst snd].
    + intros _. rewrite length_app. cbn [length]. lia.
    + intros H. rewrite IH by exact H. lia.
Qed.

Lemma total_contributions_adjust_points (key : player_key) (x : num) (d : player_dict) :
  total_contributions (dict_adjust key (fun v => (fst v, snd v ++ [x])) d)
  = total_contributions d.
Proof.
  induction d as [|[k' v] d IH]; cbn [dict_adjust]; [reflexivity|].
  destruct (key_eqb key k'); rewrite !total_contributions_cons; cbn [fst snd];
    [reflexivity|].
  now rewrite IH.
Qed.

Lemma total_contributions_set_new (key : player_key) (d : player_dict) :
  dict_mem key d = false ->
  total_contributions (dict_set key ([], []) d) = total_contributions d.
Proof.
  induction d as [|[k' v] d IH]; cbn [dict_mem existsb dict_set fst].
  - reflexivity.
  - destruct (key_eqb key k'); cbn [orb]; [discriminate|].
    intros H. rewrite !total_contributions_cons. now rewrite IH.
Qed.

Lemma dict_mem_adjust (key key' : player_key) (f : player_lists -> player_lists)
    (d : player_dict) :
  dict_mem key (dict_adjust key' f d) = dict_mem key d.
Proof.
  destruct (dict_mem key d) eqn:E.
  - apply dict_mem_get, dict_get_in_keys. rewrite dict_adjust_keys.
    now apply dict_get_in_keys, dict_mem_get.
  - destruct (dict_mem key (dict_adjust key' f d)) eqn:E'; [|reflexivity].
    apply dict_mem_get, dict_get_in_keys in E'. rewrite dict_adjust_keys in E'.
    apply dict_get_in_keys, dict_mem_get in E'. congruence.
Qed.

Lemma total_contributions_append (d : player_dict) (c : player_key * (num * num)) :
  total_contributions (dict_append d c) = S (total_contributions d).
Proof.
  unfold dict_append.
  rewrite total_contributions_adjust_points.
  destruct (dict_mem (fst c) d) eqn:E; cbn [negb].
  - now apply total_contributions_adjust_scores.
  - rewrite total_contributions_adjust_scores.
    + now rewrite total_contributions_set_new.
    + apply dict_mem_get, dict_get_in_keys.
      rewrite dict_set_new_keys by exact E. apply in_or_app. right. now left.
Qed.

Lemma total_contributions_fold (cs : list (player_key * (num * num))) (d : player_dict) :
  total_contributions (fold_left dict_append cs d)
  = length cs + total_contributions d.
Proof.
  revert d. induction cs as [|c cs IH]; intros d; cbn [fold_left length].
  - reflexivity.
  - rewrite IH, total_contributions_append. lia.
Qed.

Lemma filter_filter_absorb {A : Type} (f g : A -> bool) (l : list A) :
  (forall a, f a = true -> g a = true) ->
  filter f (filter g l) = filter f l.
Proof.
  intros H. induction l as [|x l IH]; cbn [filter]; [reflexivity|].
  destruct (g x) eqn:Hg; cbn [filter].
  - destruct (f x); now rewrite IH.
  - destruct (f x) eqn:Hf; [|exact IH]. rewrite (H x Hf) in Hg. discriminate.
Qed.

Lemma filter_filter_and {A : Type} (f g : A -> bool) (l : list A) :
  filter f (filter g l) = filter (fun a => f a && g a) l.
Proof.
  induction l as [|x l IH]; cbn [filter]; [reflexivity|].
  destruct (g x); cbn [filter].
  - rewrite andb_true_r. destruct (f x); now rewrite IH.
  - rewrite andb_false_r. exact IH.
Qed.

(** The keys of a mapping after a run of contributions: the old keys,
    then the new identities in the order of their first contribution. *)
Lemma fold_append_key_order (cs : list (player_key * (num * num))) (d : player_dict) :
  map fst (fold_left dict_append cs d)
  = map fst d
    ++ filter (fun key => negb (dict_mem key d)) (first_occurrences (map fst cs)).
Proof.
  revert d. induction cs as [|c cs IH]; intros d;
    cbn [fold_left map first_occurrences filter].
  - now rewrite app_nil_r.
  - rewrite IH, dict_append_keys.
    destruct (dict_mem (fst c) d) eqn:E; cbn [negb].
    + f_equal. rewrite filter_filter_and.
      assert (Hmem : forall key, dict_mem key (dict_append d c) = dict_mem key d).
      { intros key. unfold dict_append. rewrite !dict_mem_adjust, E. reflexivity. }
      apply filter_ext_in. intros key _. rewrite Hmem.
      destruct (dict_mem key d) eqn:Ek; cbn [negb andb]; [reflexivity|].
      destruct (key_eqb key (fst c)) eqn:Ec; [|reflexivity].
      apply key_eqb_eq in Ec. subst. congruence.
    + rewrite <- app_assoc. cbn [app]. do 2 f_equal.
      rewrite filter_filter_and. apply filter_ext_in. intros key _.
      assert (Hmem : dict_mem key (dict_append d c)
                     = dict_mem key d || key_eqb key (fst c)).
      { destruct (dict_mem key (dict_append d c)) eqn:E1.
        - apply dict_mem_get, dict_get_in_keys in E1.
          rewrite dict_append_keys, E in E1. apply in_app_or in E1.
          destruct E1 as [E1|[E1|[]]].
          + apply dict_get_in_keys, dict_mem_get in E1. now rewrite E1.
          + subst. now rewrite key_eqb_refl, orb_true_r.
        - destruct (dict_mem key d) eqn:E2.
          + exfalso. apply dict_mem_get, dict_get_in_keys in E2.
            assert (H : In key (map fst (dict_append d c))).
            { rewrite dict_append_keys, E. apply in_or_app. now left. }
            apply dict_get_in_keys, dict_mem_get in H. congruence.
          + destruct (key_eqb key (fst c)) eqn:E3; [|reflexivity].
            exfalso. apply key_eqb_eq in E3. subst.
            assert (H : In (fst c) (map fst (dict_append d c))).
            { rewrite dict_append_keys, E. apply in_or_app. right. now left. }
            apply dict_get_in_keys, dict_mem_get in H. congruence. }
      rewrite Hmem. now rewrite negb_orb.
Qed.

Lemma flat_map_length_le {A B : Type} (f : A -> list B) (l : list A) (n : nat) :
  (forall a, length (f a) <= n) -> length (flat_map f l) <= n * length l.
Proof.
  intros H. induction l as [|x l IH]; cbn [flat_map length]; [lia|].
  rewrite length_app. specialize (H x). lia.
Qed.

Lemma window_end_le (ws : worksheet) : (window_end ws <= END_ROW_IDX_1BASED)%Z.
Proof. unfold window_end. lia. Qed.

Lemma sheet_rows_length (ws : worksheet) : length (sheet_rows ws) <= 97.
Proof.
  unfold sheet_rows. fold (window_end ws). rewrite length_map, py_range2_length.
  pose proof (window_end_le ws) as H.
  unfold END_ROW_IDX_1BASED, START_ROW_IDX_1BASED in *. lia.
Qed.

Lemma sheet_rows_short (ws : worksheet) :
  (window_end ws < START_ROW_IDX_1BASED)%Z -> sheet_rows ws = [].
Proof.
  intros H. unfold sheet_rows. fold (window_end ws).
  rewrite py_range2_empty by lia. reflexivity.
Qed.

Lemma sheet_rows_same_window (ws1 ws2 : worksheet) :
  same_window ws1 ws2 -> sheet_rows ws1 = sheet_rows ws2.
Proof.
  intros [Hend Hcells]. unfold sheet_rows. fold (window_end ws1) (window_end ws2).
  rewrite <- Hend. apply map_ext_in. intros r Hr.
  apply py_range2_in in Hr.
  rewrite !Hcells; [reflexivity | lia | cbn; tauto | lia | cbn; tauto
                    | lia | cbn; tauto | lia | cbn; tauto].
Qed.

Lemma workbook_rows_same_window (wb1 wb2 : list worksheet) :
  Forall2 same_window wb1 wb2 -> workbook_rows wb1 = workbook_rows wb2.
Proof.
  unfold workbook_rows.
  induction 1 as [|ws1 ws2 wb1 wb2 Hws _ IH]; cbn [flat_map]; [reflexivity|].
  now rewrite (sheet_rows_same_window Hws), IH.
Qed.

Section AggregatorExtras.
Variable float_of_str : string -> option num.
Variable str_of_float : num -> string.
Variable strip : string -> string.

Lemma contributions_app (wb1 wb2 : list worksheet) :
  contributions float_of_str str_of_float strip (wb1 ++ wb2)
  = contributions float_of_str str_of_float strip wb1
    ++ contributions float_of_str str_of_float strip wb2.
Proof.
  unfold contributions, workbook_rows. now rewrite !flat_map_app.
Qed.

(** The lists of any identity in the aggregated mapping, empty lists
    when the identity is absent. *)
Lemma parse_lists (worksheets : list worksheet) (key : player_key) :
  dict_lists key (parse_excel_all_sheets float_of_str str_of_float strip worksheets)
  = (map fst (contributions_of float_of_str str_of_float strip key worksheets),
     map snd (contributions_of float_of_str str_of_float strip key worksheets)).
Proof.
  rewrite parse_contributions, fold_append_lists. reflexivity.
Qed.

(** X1. A row whose two name cells are both empty or blank is dropped,
    whatever its score and points cells hold. *)
Theorem blank_names_row_dropped (d : player_dict) (ln fn sc pt : cell_value) :
  blank_name str_of_float strip ln = true ->
  blank_name str_of_float strip fn = true ->
  row_step float_of_str str_of_float strip d ln fn sc pt = d /\
  contribution float_of_str str_of_float strip (ln, fn, sc, pt) = None.
Proof.
  intros Hln Hfn.
  assert (Hc : contribution float_of_str str_of_float strip (ln, fn, sc, pt) = None).
  { unfold contribution. now rewrite Hln, Hfn. }
  split; [|exact Hc]. now rewrite row_step_contribution, Hc.
Qed.

(** X2. A row with a usable name and a parsable score appends its
    score and its points (0 when the points cell does not parse) to the
    lists of its own identity, and leaves the entry of every other
    identity as it was. *)
Theorem accepted_row_touches_only_its_player (d : player_dict)
    (ln fn sc pt : cell_value) (score : num) (other : player_key) :
  blank_name str_of_float strip ln && blank_name str_of_float strip fn = false ->
  py_float float_of_str sc = Some score ->
  other <> (clean_name str_of_float strip ln, clean_name str_of_float strip fn) ->
  dict_get (clean_name str_of_float strip ln, clean_name str_of_float strip fn)
           (row_step float_of_str str_of_float strip d ln fn sc pt)
  = Some (fst (dict_lists (clean_name str_of_float strip ln,
                           clean_name str_of_float strip fn) d) ++ [score],
          snd (dict_lists (clean_name str_of_float strip ln,
                           clean_name str_of_float strip fn) d)
          ++ [match py_float float_of_str pt with
              | Some p => p
              | None => Q2Qc 0
              end]) /\
  dict_get other (row_step float_of_str str_of_float strip d ln fn sc pt)
  = dict_get other d.
Proof.
  intros Hname Hsc Hother.
  rewrite row_step_contribution. unfold contribution. rewrite Hname, Hsc.
  rewrite !dict_get_append. cbn [fst snd]. rewrite key_eqb_refl.
  split; [reflexivity|].
  apply key_eqb_neq in Hother. now rewrite Hother.
Qed.

(** X3. The players of the aggregated mapping come in the order in
    which their first accepted row is met, sheet after sheet and row
    after row. *)
Theorem players_in_order_of_first_contribution (worksheets : list worksheet) :
  map fst (parse_excel_all_sheets float_of_str str_of_float strip worksheets)
  = first_occurrences
      (map fst (contributions float_of_str str_of_float strip worksheets)).
Proof.
  rewrite parse_contributions, fold_append_key_order. cbn [map app].
  apply filter_all. reflexivity.
Qed.

(** X4. The aggregator reads nothing but rows 4 to min(100, max_row)
    of columns C, D, I and K: two workbooks whose sheets agree there,
    one by one, give the same mapping. *)
Theorem parse_reads_only_the_window (wb1 wb2 : list worksheet) :
  Forall2 same_window wb1 wb2 ->
  parse_excel_all_sheets float_of_str str_of_float strip wb1
  = parse_excel_all_sheets float_of_str str_of_float strip wb2.
Proof.
  intros H. rewrite !parse_contributions. unfold contributions.
  now rewrite (workbook_rows_same_window H).
Qed.

(** X5. The mapping holds as many scores, all players together, as
    the workbook has accepted rows; this is at most the number of rows
    scanned, which is at most 97 for each sheet. *)
Theorem contributions_counted_and_bounded (worksheets : list worksheet) :
  total_contributions
    (parse_excel_all_sheets float_of_str str_of_float strip worksheets)
  = length (contributions float_of_str str_of_float strip worksheets) /\
  length (contributions float_of_str str_of_float strip worksheets)
  <= length (workbook_rows worksheets) /\
  length (workbook_rows worksheets) <= 97 * length worksheets.
Proof.
  split; [|split].
  - rewrite parse_contributions, total_contributions_fold.
    unfold total_contributions. cbn. lia.
  - unfold contributions.
    rewrite <- (Nat.mul_1_l (length (workbook_rows worksheets))).
    apply flat_map_length_le. intros row.
    destruct (contribution _ _ _ row); cbn; lia.
  - unfold workbook_rows. apply flat_map_length_le. apply sheet_rows_length.
Qed.

(** X6. A sheet whose last row lies above row 4, or that reports no
    [max_row], contributes nothing: taking it out of the workbook does
    not change the mapping. *)
Theorem short_sheet_contributes_nothing (wb1 wb2 : list worksheet) (ws : worksheet) :
  (window_end ws < START_ROW_IDX_1BASED)%Z ->
  sheet_step float_of_str str_of_float strip
    (parse_excel_all_sheets float_of_str str_of_float strip wb1) ws
  = parse_excel_all_sheets float_of_str str_of_float strip wb1 /\
  parse_excel_all_sheets float_of_str str_of_float strip (wb1 ++ ws :: wb2)
  = parse_excel_all_sheets float_of_str str_of_float strip (wb1 ++ wb2).
Proof.
  intros H. split.
  - rewrite sheet_step_contributions, (@sheet_rows_short ws H). reflexivity.
  - rewrite !parse_contributions. unfold contributions, workbook_rows.
    rewrite !flat_map_app. cbn [flat_map]. now rewrite (@sheet_rows_short ws H).
Qed.

(** X7. The lists of a player in the mapping of two workbooks put
    one after the other are the player's lists from the first followed
    by the player's lists from the second. *)
Theorem parse_app_concatenates_lists (wb1 wb2 : list worksheet) (key : player_key) :
  dict_lists key
    (parse_excel_all_sheets float_of_str str_of_float strip (wb1 ++ wb2))
  = (fst (dict_lists key
            (parse_excel_all_sheets float_of_str str_of_float strip wb1))
     ++ fst (dict_lists key
               (parse_excel_all_sheets float_of_str str_of_float strip wb2)),
     snd (dict_lists key
            (parse_excel_all_sheets float_of_str str_of_float strip wb1))
     ++ snd (dict_lists key
               (parse_excel_all_sheets float_of_str str_of_float strip wb2))).
Proof.
  rewrite !parse_lists. cbn [fst snd]. unfold contributions_of.
  now rewrite contributions_app, collect_app, !map_app.
Qed.
End AggregatorExtras.

(** Row 8 of the sample sheet: no surname, a given name of two spaces. *)
Lemma blank_names_row_dropped_witness :
  blank_name sample_str_of_float sample_strip CNone = true /\
  blank_name sample_str_of_float sample_strip (CText "  ") = true /\
  row_step sample_float_of_str sample_str_of_float sample_strip example_players
    CNone (CText "  ") (CInt 50) (CInt 5)
  = example_players /\
  contribution sample_float_of_str sample_str_of_float sample_strip
    (CNone, CText "  ", CInt 50, CInt 5)
  = None.
Proof.
  split; [reflexivity|]. split; [reflexivity|].
  apply (@blank_names_row_dropped sample_float_of_str sample_str_of_float
           sample_strip example_players CNone (CText "  ") (CInt 50) (CInt 5));
    reflexivity.
Defined.

(** Row 4 of the sample sheet filed in the mapping of the four sample
    players: Martin gains a score and a points value, Durand nothing. *)
Lemma accepted_row_touches_only_its_player_witness :
  blank_name sample_str_of_float sample_strip (CText "Martin")
  && blank_name sample_str_of_float sample_strip (CText "Luc") = false /\
  py_float sample_float_of_str (CInt 80) = Some (num_of_Z 80) /\
  ("Durand", "Zoe")%string
  <> (clean_name sample_str_of_float sample_strip (CText "Martin"),
      clean_name sample_str_of_float sample_strip (CText "Luc")) /\
  dict_get (clean_name sample_str_of_float sample_strip (CText "Martin"),
            clean_name sample_str_of_float sample_strip (CText "Luc"))
    (row_step sample_float_of_str sample_str_of_float sample_strip example_players
       (CText "Martin") (CText "Luc") (CInt 80) (CInt 20))
  = Some (fst (dict_lists
                 (clean_name sample_str_of_float sample_strip (CText "Martin"),
                  clean_name sample_str_of_float sample_strip (CText "Luc"))
                 example_players) ++ [num_of_Z 80],
          snd (dict_lists
                 (clean_name sample_str_of_float sample_strip (CText "Martin"),
                  clean_name sample_str_of_float sample_strip (CText "Luc"))
                 example_players)
          ++ [match py_float sample_float_of_str (CInt 20) with
              | Some p => p
              | None => Q2Qc 0
              end]) /\
  dict_get ("Durand", "Zoe")%string
    (row_step sample_float_of_str sample_str_of_float sample_strip example_players
       (CText "Martin") (CText "Luc") (CInt 80) (CInt 20))
  = dict_get ("Durand", "Zoe")%string example_players.
Proof.
  assert (Hne : ("Durand", "Zoe")%string
                <> (clean_name sample_str_of_float sample_strip (CText "Martin"),
                    clean_name sample_str_of_float sample_strip (CText "Luc"))).
  { vm_compute. discriminate. }
  split; [reflexivity|]. split; [reflexivity|]. split; [exact Hne|].
  apply (@accepted_row_touches_only_its_player sample_float_of_str
           sample_str_of_float sample_strip example_players
           (CText "Martin") (CText "Luc") (CInt 80) (CInt 20) (num_of_Z 80)
           ("Durand", "Zoe")%string).
  - reflexivity.
  - reflexivity.
  - exact Hne.
Defined.

Lemma sample_sheets_same_window : Forall2 same_window sample_workbook sample_workbook_annotated.
Proof.
  constructor; [|constructor; [|constructor]].
  - split; [reflexivity|]. intros r col Hr Hcol.
    unfold sample_sheet_annotated. cbn [cell].
    destruct (r <? 4)%Z eqn:E.
    + apply Z.ltb_lt in E. unfold START_ROW_IDX_1BASED in Hr. lia.
    + destruct Hcol as [<-|[<-|[<-|[<-|[]]]]]; reflexivity.
  - split; reflexivity.
Qed.

Lemma parse_reads_only_the_window_witness :
  Forall2 same_window sample_workbook sample_workbook_annotated /\
  parse_excel_all_sheets sample_float_of_str sample_str_of_float sample_strip
    sample_workbook
  = parse_excel_all_sheets sample_float_of_str sample_str_of_float sample_strip
      sample_workbook_annotated.
Proof.
  split; [exact sample_sheets_same_window|].
  apply (@parse_reads_only_the_window sample_float_of_str sample_str_of_float
           sample_strip sample_workbook sample_workbook_annotated).
  exact sample_sheets_same_window.
Defined.

Lemma short_sheet_contributes_nothing_witness :
  (window_end short_sheet < START_ROW_IDX_1BASED)%Z /\
  sheet_step sample_float_of_str sample_str_of_float sample_strip
    (parse_excel_all_sheets sample_float_of_str sample_str_of_float sample_strip
       [sample_sheet]) short_sheet
  = parse_excel_all_sheets sample_float_of_str sample_str_of_float sample_strip
      [sample_sheet] /\
  parse_excel_all_sheets sample_float_of_str sample_str_of_float sample_strip
    ([sample_sheet] ++ short_sheet :: [])
  = parse_excel_all_sheets sample_float_of_str sample_str_of_float sample_strip
      ([sample_sheet] ++ []).
Proof.
  split; [reflexivity|].
  apply (@short_sheet_contributes_nothing sample_float_of_str sample_str_of_float
           sample_strip [sample_sheet] [] short_sheet).
  reflexivity.
Defined.

(* ================================================================== *)
(** * Further properties of the ranker                                 *)
(* ================================================================== *)

Lemma filter_map_length {A B : Type} (f : B -> bool) (g : A -> B) (l : list A) :
  length (filter f (map g l)) = length (filter (fun x => f (g x)) l).
Proof.
  induction l as [|x l IH]; cbn [map filter]; [reflexivity|].
  destruct (f (g x)); cbn [length]; now rewrite IH.
Qed.






(** The rank of an entry counts the players with better totals. *)
Lemma entry_rank_count (k : Z) (player_data : player_dict)
    (e : player_key * player_lists) :
  entry_rank k player_data e
  = (1 + Z.of_nat (length (better_players k player_data e)))%Z.
Proof.
  unfold entry_rank, rank_of, rows_with_meta, better_players.
  rewrite filter_map_length. do 3 f_equal.
  apply filter_ext. intros e'. now rewrite player_meta_totals.
Qed.

(** Every row of the table is the base row of some entry behind that
    entry's rank, for every K. *)
Lemma ranked_rows_in (player_data : player_dict) (k : Z) (r : list value) :
  In r (snd (compute_top_k_and_totals player_data k)) <->
  exists e, In e player_data /\
            r = VInt (entry_rank k player_data e) :: base_row (player_meta k e).
Proof.
  assert (Hperm := ranked_rows_perm player_data k).
  unfold rows_with_meta in Hperm at 2. rewrite map_map in Hperm.
  split.
  - intros H. apply (Permutation_in _ Hperm) in H. apply in_map_iff in H.
    destruct H as (e & <- & He). exists e. split; [exact He|].
    unfold entry_rank. now rewrite player_meta_totals.
  - intros (e & He & ->).
    apply (Permutation_in _ (Permutation_sym Hperm)). apply in_map_iff.
    exists e. split; [|exact He].
    unfold entry_rank. now rewrite player_meta_totals.
Qed.






Lemma final_cmp_rank_le (c1 c2 : Z) (l1 l2 f1 f2 : string) :
  cmp_ltb final_cmp (c2, l2, f2) (c1, l1, f1) = false -> (c1 <= c2)%Z.
Proof.
  unfold cmp_ltb, final_cmp. unfold lex_cmp at 1 2. cbn [fst snd].
  destruct (Z.compare c2 c1) eqn:E.
  - apply Z.compare_eq in E. lia.
  - cbn. discriminate.
  - intros _. apply Z.compare_gt_iff in E. lia.
Qed.

(** X10. For every K, the table of a mapping that is not empty starts
    with a row of rank 1. *)
Theorem table_starts_at_rank_one (player_data : player_dict) (k : Z) :
  player_data <> [] ->
  exists r rest,
    snd (compute_top_k_and_totals player_data k) = r :: rest /\
    row_rank r = 1%Z.
Proof.
  intros Hne.
  destruct (snd (compute_top_k_and_totals player_data k)) as [|r rest] eqn:Hrows.
  { exfalso. apply Hne. apply length_zero_iff_nil.
    pose proof (Permutation_length (ranked_rows_perm player_data k)) as Hlen.
    rewrite Hrows in Hlen. unfold rows_with_meta in Hlen.
    rewrite !length_map in Hlen. cbn in Hlen. lia. }
  exists r, rest. split; [reflexivity|].
  (* the first player of the totals order gets rank 1 *)
  assert (Hone : exists e1, In (VInt 1 :: base_row (player_meta k e1)) (r :: rest)).
  { rewrite <- Hrows. unfold compute_top_k_and_totals. cbn [snd].
    destruct (sorted_meta player_data k) as [|m S] eqn:HS.
    - exfalso. apply Hne. apply length_zero_iff_nil.
      pose proof (Permutation_length (sorted_meta_perm player_data k)) as Hlen.
      rewrite HS in Hlen. unfold rows_with_meta in Hlen.
      rewrite length_map in Hlen. cbn in Hlen. lia.
    - assert (Hm : In m (rows_with_meta player_data k)).
      { apply (Permutation_in _ (sorted_meta_perm player_data k)).
        rewrite HS. now left. }
      unfold rows_with_meta in Hm. apply in_map_iff in Hm.
      destruct Hm as (e1 & <- & _). exists e1.
      apply (list_sort_in final_key final_cmp). rewrite assign_ranks_scan.
      cbn [scan_ranks]. left. reflexivity. }
  destruct Hone as (e1 & H1).
  assert (Hr : In r (snd (compute_top_k_and_totals player_data k))).
  { rewrite Hrows. now left. }
  apply ranked_rows_in in Hr. destruct Hr as (e & He & ->).
  cbn [row_rank].
  assert (Hlow : (1 <= entry_rank k player_data e)%Z).
  { rewrite entry_rank_count. lia. }
  assert (Hhigh : (entry_rank k player_data e <= 1)%Z).
  { destruct H1 as [H1|H1].
    - injection H1 as H1 _. lia.
    - pose proof (final_rows_sorted player_data k) as Hs.
      rewrite Hrows in Hs. inversion Hs as [|? ? _ Hall]; subst.
      rewrite Forall_forall in Hall. specialize (Hall _ H1).
      unfold key_le in Hall. rewrite !final_key_final_row in Hall.
      now apply final_cmp_rank_le in Hall. }
  lia.
Qed.

Lemma table_starts_at_rank_one_witness :
  example_players <> [] /\
  exists r rest,
    snd (compute_top_k_and_totals example_players 15) = r :: rest /\
    row_rank r = 1%Z.
Proof.
  assert (H : example_players <> []) by discriminate.
  split; [exact H|].
  exact (@table_starts_at_rank_one example_players 15 H).
Defined.











(* ------------------------------------------------------------------ *)
(** ** The order of the contributions and of the sheets                *)
(* ------------------------------------------------------------------ *)














Section SheetOrder.
Variable float_of_str : string -> option num.
Variable str_of_float : num -> string.
Variable strip : string -> string.


End SheetOrder.


(** The two sheets in either order: the players enter the mapping in
    a different order, with their lists in a different order. *)
Example sheet_order_changes_mapping :
  map fst (parse_excel_all_sheets sample_float_of_str sample_str_of_float
             sample_strip [sample_sheet; second_sheet])
  = [("Martin", "Luc"); ("Petit", "Max")]%string /\
  map fst (parse_excel_all_sheets sample_float_of_str sample_str_of_float
             sample_strip [second_sheet; sample_sheet])
  = [("Petit", "Max"); ("Martin", "Luc")]%string.
Proof. split; vm_compute; reflexivity. Qed.

(* ================================================================== *)
(** * Properties of the exports and of the command line                *)
(* ================================================================== *)

Lemma csv_pad_short (width : nat) (row : list value) :
  length row <= width ->
  csv_pad width row = row ++ repeat blank (width - length row).
Proof. intros _. unfold csv_pad. apply pad_loop_spec. Qed.

Lemma csv_pad_length (width : nat) (row : list value) :
  length (csv_pad width row) = Nat.max width (length row).
Proof.
  unfold csv_pad. rewrite pad_loop_spec, length_app, repeat_length. lia.
Qed.

(** X16. For K not negative, [export_csv] writes the headers and then
    every row of the ranker followed by one blank field, so that each
    record has as many fields as there are headers; the total score
    stands under the header "Totaux", the total points under "Scores"
    and the blank under "Points". *)
Theorem csv_rows_end_one_column_early (player_data : player_dict) (k : Z) :
  (0 <= k)%Z ->
  csv_records (fst (compute_top_k_and_totals player_data k))
              (snd (compute_top_k_and_totals player_data k))
  = map VStr (headers k)
    :: map (fun r => r ++ [blank]) (snd (compute_top_k_and_totals player_data k)) /\
  (exists labels,
      headers k = labels ++ ["Totaux"; "Scores"; "Points"]%string /\
      length labels = 4 + Z.to_nat k) /\
  Forall (fun record =>
            length record = length (headers k) /\
            exists fields score points,
              record = fields ++ [VNum score; VNum points; blank] /\
              length fields = 4 + Z.to_nat k)
         (map (fun r => r ++ [blank]) (snd (compute_top_k_and_totals player_data k))).
Proof.
  intros Hk.
  assert (Hrow : forall r, In r (snd (compute_top_k_and_totals player_data k)) ->
            exists fields score points,
              r = fields ++ [VNum score; VNum points] /\
              length fields = 4 + Z.to_nat k).
  { intros r Hr. apply (output_rows_in player_data r Hk) in Hr.
    destruct Hr as (e & _ & ->). unfold player_row, row_fields.
    set (kept := top_combined k (fst (snd e)) (snd (snd e))).
    eexists (_ ++ points_slots k kept), _, _. split.
    - rewrite <- app_assoc. reflexivity.
    - rewrite length_app, points_slots_length; [reflexivity|].
      apply top_combined_le. exact Hk. }
  split; [|split].
  - cbn [compute_top_k_and_totals fst]. unfold csv_records. f_equal.
    apply map_ext_in. intros r Hr.
    destruct (Hrow r Hr) as (fields & score & points & -> & Hlen).
    unfold csv_pad. rewrite pad_loop_spec, headers_length, length_app. cbn [length].
    replace (Z.to_nat k + 7 - (length fields + 2)) with 1 by lia. reflexivity.
  - exists (["Classement"; "Nom"; "Prénom"; "Participations"]%string ++ points_cols k).
    split.
    + unfold headers. now rewrite <- app_assoc.
    + rewrite length_app. unfold points_cols, py_range.
      now rewrite !length_map, length_seq.
  - apply Forall_forall. intros record Hrec. apply in_map_iff in Hrec.
    destruct Hrec as (r & <- & Hr).
    destruct (Hrow r Hr) as (fields & score & points & -> & Hlen). split.
    + rewrite headers_length, !length_app. cbn [length]. lia.
    + exists fields, score, points. split; [|exact Hlen].
      rewrite <- app_assoc. reflexivity.
Qed.

Lemma csv_rows_end_one_column_early_witness :
  (0 <= 3)%Z /\
  csv_records (fst (compute_top_k_and_totals example_players 3))
              (snd (compute_top_k_and_totals example_players 3))
  = map VStr (headers 3)
    :: map (fun r => r ++ [blank]) (snd (compute_top_k_and_totals example_players 3)) /\
  (exists labels,
      headers 3 = labels ++ ["Totaux"; "Scores"; "Points"]%string /\
      length labels = 4 + Z.to_nat 3) /\
  Forall (fun record =>
            length record = length (headers 3) /\
            exists fields score points,
              record = fields ++ [VNum score; VNum points; blank] /\
              length fields = 4 + Z.to_nat 3)
         (map (fun r => r ++ [blank]) (snd (compute_top_k_and_totals example_players 3))).
Proof.
  split; [discriminate|].
  apply (@csv_rows_end_one_column_early example_players 3). discriminate.
Defined.

Lemma num_of_Z_this (z : Z) : this (num_of_Z z) = inject_Z z.
Proof.
  unfold num_of_Z, Q2Qc. cbn [this]. apply Qred_identity.
  cbn [inject_Z Qnum Qden]. apply Z.gcd_1_r.
Qed.

(** [is_integer] holds exactly of the numbers with an integral value. *)
Lemma is_integer_iff (q : num) : is_integer q = true <-> exists z, q = num_of_Z z.
Proof.
  unfold is_integer. split.
  - intros H. apply Pos.eqb_eq in H. exists (Qnum (this q)).
    apply Qc_is_canon. rewrite num_of_Z_this.
    destruct q as [[n d] Hq]. cbn [this Qnum Qden] in *. subst d. reflexivity.
  - intros [z ->]. now rewrite num_of_Z_this.
Qed.

Section ExportFacts.
Variable format_1f : num -> string.
Variable cm : num.
Variable path_join : string -> string -> string.

(** X17. In the printable table a number with an integral value is
    printed as that integer, without decimal point, exactly like an
    [int]; every other number goes through the one-decimal format; a
    blank slot stays empty. *)
Theorem whole_numbers_print_without_decimals (q : num) :
  format_cell format_1f blank = EmptyString /\
  ((exists z, q = num_of_Z z /\
              format_cell format_1f (VNum q) = str_of_int z /\
              format_cell format_1f (VNum q) = format_cell format_1f (VInt z))
   \/ ((forall z, q <> num_of_Z z) /\
       format_cell format_1f (VNum q) = format_1f q)).
Proof.
  split; [reflexivity|].
  destruct (is_integer q) eqn:E.
  - left. destruct (proj1 (is_integer_iff q) E) as [z Hz]. exists z.
    split; [exact Hz|]. subst q. cbn [format_cell]. rewrite E, num_of_Z_this.
    split; reflexivity.
  - right. split.
    + intros z Hz. assert (is_integer q = true); [|congruence].
      apply is_integer_iff. eauto.
    + cbn [format_cell]. now rewrite E.
Qed.

(** X18. For the table [run] computes, every formatted body row of
    the printable table has the 21 fields of the second header row:
    rank, names and play count, fifteen slots under the labels 1 to 15,
    then the total score under "Scores" and the total points under
    "Points". The first header row has 20 entries and there are 22
    column widths, one for each header of the ranker. *)
Theorem pdf_body_matches_second_header (player_data : player_dict) :
  length first_header = 20 /\
  (exists labels,
      second_header
      = [EmptyString; EmptyString; EmptyString; EmptyString]
        ++ labels ++ ["Scores"; "Points"]%string /\
      length labels = 15) /\
  length (col_widths cm (fst (compute_top_k_and_totals player_data TOP_K))) = 22 /\
  Forall (fun row =>
            length row = length second_header /\
            exists rank id count slots score points,
              row = [str_of_int rank; fst id; snd id; str_of_int (Z.of_nat count)]
                    ++ slots
                    ++ [format_cell format_1f (VNum score);
                        format_cell format_1f (VNum points)] /\
              length slots = 15)
         (map (map (format_cell format_1f))
              (snd (compute_top_k_and_totals player_data TOP_K))).
Proof.
  split; [reflexivity|]. split; [|split].
  - eexists. split; [reflexivity|reflexivity].
  - unfold col_widths. rewrite length_map.
    cbn [compute_top_k_and_totals fst]. now rewrite headers_length.
  - apply Forall_forall. intros row Hrow. apply in_map_iff in Hrow.
    destruct Hrow as (r & <- & Hr).
    apply output_rows_in in Hr; [|discriminate]. destruct Hr as (e & _ & ->).
    unfold player_row, row_fields.
    set (kept := top_combined TOP_K (fst (snd e)) (snd (snd e))).
    assert (Hslots : length (points_slots TOP_K kept) = 15).
    { rewrite points_slots_length; [reflexivity|].
      apply top_combined_le. discriminate. }
    rewrite !map_app. cbn [map format_cell]. split.
    + rewrite !length_app, length_map, Hslots. reflexivity.
    + exists (entry_rank TOP_K player_data e), (fst e), (length kept),
             (map (format_cell format_1f) (points_slots TOP_K kept)),
             (py_sum (map snd kept)), (py_sum (map fst kept)).
      split; [reflexivity|]. now rewrite length_map.
Qed.

(** X19. [main] always exports something: without [--pdf] and
    [--csv] it writes both files, otherwise exactly the kinds asked for;
    the CSV is reported before the PDF, each under its own path. *)
Theorem main_exports_what_is_asked_or_both (out_dir day : string) (pdf csv : bool) :
  main_outputs path_join out_dir pdf csv day <> [] /\
  main_outputs path_join out_dir false false day
  = [("csv"%string, csv_path path_join out_dir day);
     ("pdf"%string, pdf_path path_join out_dir day)] /\
  (In "csv"%string (map fst (main_outputs path_join out_dir pdf csv day))
   <-> csv = true \/ pdf = false) /\
  (In "pdf"%string (map fst (main_outputs path_join out_dir pdf csv day))
   <-> pdf = true \/ csv = false).
Proof.
  split; [|split; [|split]].
  - destruct pdf, csv; discriminate.
  - reflexivity.
  - destruct pdf, csv; cbn; split; intros H; auto;
      repeat (destruct H as [H|H]; try discriminate; try contradiction).
  - destruct pdf, csv; cbn; split; intros H; auto;
      repeat (destruct H as [H|H]; try discriminate; try contradiction).
Qed.
End ExportFacts.
